(** * file-reader: CSV and properties file readers

  A shallow embedding of [csv_file_reader.h] and
  [properties_file_reader.h] (namespace [utils]) and the properties of
  their tokenizer, record stores and properties store.

  Conventions of the embedding
  - [std::string] is [string] (a list of 8-bit [ascii] characters);
    [char] is signed, as on x86: a character is negative when its code
    is 128 or more.
  - [size_t] values that are sizes or positions inside a string or a
    vector are [nat]; the two index variables of the properties reader
    that the code decrements or increments past the ends are [N] with
    the 64-bit wrap-around written out.
  - A constructor is a function from the file (the result of opening
    [fileName]) to the contents of the store when the constructor is
    left, together with the way it is left.
  - An access outside a string or a vector is undefined behaviour in
    the source; the embedding makes it an explicit outcome. *)

From Stdlib Require Import List String Ascii Bool Arith NArith ZArith Lia.
From Stdlib Require Import DecimalString OrderedTypeEx Sorted Permutation.
From Stdlib Require Import SpecFloat.
Import ListNotations.

Local Open Scope string_scope.
Local Open Scope list_scope.

(* ================================================================== *)
(** * Strings and the line reader *)

Module Str.

(** [str.substr(pos, n)] for [pos <= str.size()]. *)
Definition substr (str : string) (pos n : nat) : string :=
  substring pos n str.

(** The suffix of [str] that starts at position [pos]. *)
Fixpoint drop (pos : nat) (str : string) : string :=
  match pos, str with
  | 0, _ => str
  | S p, EmptyString => EmptyString
  | S p, String _ r => drop p r
  end.

(** [str.find(c, pos)]: the first position at or after [pos] that holds
    [c]; [None] is [std::string::npos]. *)
Fixpoint find (str : string) (c : ascii) (pos : nat) : option nat :=
  match str, pos with
  | EmptyString, _ => None
  | String a r, 0 =>
      if Ascii.eqb a c then Some 0 else option_map S (find r c 0)
  | String a r, S p => option_map S (find r c p)
  end.

(** [str.push_back(c)]. *)
Definition push_back (str : string) (c : ascii) : string :=
  str ++ String c EmptyString.

(** [std::to_string] of an unsigned value. *)
Definition to_string (n : nat) : string :=
  NilZero.string_of_uint (Nat.to_uint n).

(** The newline character, the delimiter of [getline]. *)
Definition newline : ascii := ascii_of_nat 10.

(** The values the variable [line] takes in
    [while (!file.eof()) { getline(file, line); ... }] on a file with the
    given content: the pieces between newlines.  A content that ends
    in a newline (the empty content too) gives a last, empty line: the
    last [getline] extracts nothing, leaves [line] empty and sets
    [eofbit]. *)
Fixpoint getlines (content : string) : list string :=
  match content with
  | EmptyString => [EmptyString]
  | String a r =>
      if Ascii.eqb a newline then EmptyString :: getlines r
      else match getlines r with
           | l :: ls => String a l :: ls
           | [] => [String a EmptyString]
           end
  end.

(** The content of the file whose lines are [lines]: the lines with a
    newline between them. *)
Fixpoint text (lines : list string) : string :=
  match lines with
  | [] => EmptyString
  | [l] => l
  | l :: ls => l ++ String newline (text ls)
  end.

End Str.

(* ================================================================== *)
(** * Tokenizer *)

Module Tokenizer.
Import Str.

(** The [while] loop of [Tokenizer::operator()] and the statement after
    it.  [fuel] bounds the number of iterations; [None] is a loop that
    has not finished within [fuel] iterations. *)
Fixpoint loop (fuel : nat) (str : string) (sep : ascii)
         (init_pos : nat) (tokens : list string) : option (list string) :=
  match fuel with
  | 0 => None
  | S fuel' =>
      match find str sep init_pos with
      | Some pos =>
          loop fuel' str sep (pos + 1)
               (tokens ++ [substr str init_pos (pos - init_pos)])
      | None =>
          Some (tokens ++ [substr str init_pos (length str - init_pos)])
      end
  end.

(** [Tokenizer::operator()]: [tokens.clear()], the loop from position 0,
    the last token.  Every pass of the loop moves [init_pos] at least
    one character forward, so [length str + 1] passes are enough
    ([run_total]). *)
Definition run (str : string) (sep : ascii) : option (list string) :=
  loop (S (length str)) str sep 0 [].

Definition tokenize (str : string) (sep : ascii) : list string :=
  match run str sep with
  | Some tokens => tokens
  | None => []
  end.

(** ** The contract in the words of the specification *)

(** The substrings of [s] split on every occurrence of [c], empty
    substrings kept, the last one running to the end of [s]. *)
Fixpoint split_on (c : ascii) (s : string) : list string :=
  match s with
  | EmptyString => [EmptyString]
  | String a r =>
      if Ascii.eqb a c then EmptyString :: split_on c r
      else match split_on c r with
           | t :: ts => String a t :: ts
           | [] => [String a EmptyString]
           end
  end.

(** The tokens written one after another with [c] between them. *)
Fixpoint join (c : ascii) (tokens : list string) : string :=
  match tokens with
  | [] => EmptyString
  | [t] => t
  | t :: ts => t ++ String c (join c ts)
  end.

(** [c] occurs in [s]. *)
Fixpoint occurs (c : ascii) (s : string) : bool :=
  match s with
  | EmptyString => false
  | String a r => Ascii.eqb a c || occurs c r
  end.

(** The number of occurrences of [c] in [s]. *)
Fixpoint count (c : ascii) (s : string) : nat :=
  match s with
  | EmptyString => 0
  | String a r => (if Ascii.eqb a c then 1 else 0) + count c r
  end.

End Tokenizer.

(* ================================================================== *)
(** * Exceptions and the ways a constructor is left *)

Module Exn.

(** The exception classes the two headers throw, with their [what()]. *)
Inductive exception : Type :=
| runtime_error (what : string)
| range_error (what : string)
| out_of_range (what : string).

Definition what (e : exception) : string :=
  match e with
  | runtime_error w | range_error w | out_of_range w => w
  end.

(** How a constructor is left: it returns, it throws, or it reads outside
    a string or a vector (undefined behaviour in the source). *)
Inductive completion : Type :=
| Returned
| Thrown (e : exception)
| Undefined.

End Exn.

(* ================================================================== *)
(** * Conversion of a token to the type of a column *)

Module Decoder.

(** The integer types a column can have, with the sizes and the
    signedness of x86-64 Linux: [char] and [wchar_t] are signed, [long]
    has 8 bytes. *)
Inductive integer_type : Type :=
| char_t
| signed_char_t
| unsigned_char_t
| short_t
| unsigned_short_t
| int_t
| unsigned_int_t
| long_t
| unsigned_long_t
| long_long_t
| unsigned_long_long_t
| wchar_t
| char16_t
| char32_t.

Inductive floating_type : Type :=
| float_t
| double_t
| long_double_t.

(** The types [static_assert] admits for a column: [std::string] and
    the arithmetic types. *)
Inductive VAL_TYPE : Type :=
| std_string
| bool_t
| integer (ty : integer_type)
| floating (K : floating_type).

(** [sizeof(VAL_TYPE)] of an integer type, and [sizeof(int)]. *)
Definition sizeof (ty : integer_type) : Z :=
  match ty with
  | char_t | signed_char_t | unsigned_char_t => 1
  | short_t | unsigned_short_t | char16_t => 2
  | int_t | unsigned_int_t | wchar_t | char32_t => 4
  | long_t | unsigned_long_t | long_long_t | unsigned_long_long_t => 8
  end.

Definition sizeof_int : Z := 4.

Definition is_signed (ty : integer_type) : bool :=
  match ty with
  | char_t | signed_char_t | short_t | int_t | long_t | long_long_t
  | wchar_t => true
  | unsigned_char_t | unsigned_short_t | unsigned_int_t | unsigned_long_t
  | unsigned_long_long_t | char16_t | char32_t => false
  end.



(** The conversion [VAL_TYPE(z)] of an integer value to an integer
    type: the value of the type that is congruent to [z] modulo 2 to
    the number of bits of the type. *)
Definition to_integer (ty : integer_type) (z : Z) : Z :=
  let modulus := (2 ^ (8 * sizeof ty))%Z in
  if is_signed ty
  then ((z + modulus / 2) mod modulus - modulus / 2)%Z
  else (z mod modulus)%Z.

(** [bool(z)]: whether [z] is not 0. *)
Definition to_bool (z : Z) : bool := negb (Z.eqb z 0).

(** The conversion [VAL_TYPE(x)] of a [double] to a floating-point
    type.  A floating-point value is a [spec_float]: a zero, an
    infinity, a NaN, or a sign, a mantissa and a binary exponent.  To
    [float] the value is rounded to the nearest value with 24 bits (to
    the even one of two nearest, to an infinity beyond the largest);
    [double] and [long double] hold every [double]. *)
Definition to_floating (K : floating_type) (x : spec_float) : spec_float :=
  match K with
  | float_t =>
      match x with
      | S754_finite s m e => binary_round 24 128 s m e
      | _ => x
      end
  | double_t | long_double_t => x
  end.

(** A value of a column. *)
Inductive field : Type :=
| Text (s : string)
| Boolean (b : bool)
| Integer (z : Z)
| Floating (x : spec_float).

Section Libc.

(** [atof], [atol] and [atoi] are the C library's, not this
    repository's: they are parameters here.  [atof] gives a [double],
    [atol] a [long], [atoi] an [int]. *)
Variable atof : string -> spec_float.
Variable atol : string -> Z.
Variable atoi : string -> Z.

(** The chain of [if constexpr] that both readers have:
    the string itself, [VAL_TYPE(atof(...))] for a floating-point type,
    [VAL_TYPE(atol(...))] for a type larger than [int],
    [VAL_TYPE(atoi(...))] for every other type. *)
Definition decode (T : VAL_TYPE) (token : string) : field :=
  match T with
  | std_string => Text token
  | floating K => Floating (to_floating K (atof token))
  | integer ty =>
      if (sizeof_int <? sizeof ty)%Z
      then Integer (to_integer ty (atol token))
      else Integer (to_integer ty (atoi token))
  | bool_t => Boolean (to_bool (atoi token))
  end.

End Libc.

End Decoder.

(* ================================================================== *)
(** * CSV file reader *)

Module CSV.
Import Str Exn Decoder.

(** The test that makes the constructors skip a line:
    [line.length() == 0 || line[0] == '#' || line[0] == '!']. *)
Definition skipped (line : string) : bool :=
  match line with
  | EmptyString => true
  | String c _ => Ascii.eqb c "#" || Ascii.eqb c "!"
  end.

(** The text of the [std::range_error] of both constructors. *)
Definition inconsistent (line values expected : nat) : exception :=
  range_error ("Inconsistent CSV file. Line " ++ to_string line
               ++ " contains " ++ to_string values
               ++ " values. Expected " ++ to_string expected).

Definition cannot_open (fileName : string) : exception :=
  runtime_error ("File cannot be opened: " ++ fileName).

(** ** [CSVFileReader<TYPES...>]: one declared type per column *)

Module Hetero.
Section WithLibc.

Variable atof : string -> spec_float.
Variable atol : string -> Z.
Variable atoi : string -> Z.

(** [std::tuple<TYPES...>], its components in order. *)
Definition record : Type := list field.

(** [_copyToTuple<POS>]: [TYPES] are the declared types from position
    [POS] on.  [strValues[POS]] outside the vector is [None]. *)
Fixpoint _copyToTuple (TYPES : list VAL_TYPE) (POS : nat)
         (strValues : list string) : option record :=
  match TYPES with
  | [] => Some []
  | T :: TYPES' =>
      match nth_error strValues POS with
      | None => None
      | Some token =>
          match _copyToTuple TYPES' (S POS) strValues with
          | None => None
          | Some tuple => Some (decode atof atol atoi T token :: tuple)
          end
      end
  end.

(** The [while] loop of the constructor over the lines [getline]
    delivers; [_records] is the vector so far.  The result is the
    vector when the constructor is left and the way it is left. *)
Fixpoint read (TYPES : list VAL_TYPE) (separator : ascii)
         (lines : list string) (_records : list record)
  : list record * completion :=
  match lines with
  | [] => (_records, Returned)
  | line :: lines' =>
      if skipped line then read TYPES separator lines' _records
      else
        let strValues := Tokenizer.tokenize line separator in
        if negb (Nat.eqb (List.length strValues) (List.length TYPES)) then
          let line := List.length _records + 1 in
          ([], Thrown (inconsistent line (List.length strValues)
                                    (List.length TYPES)))
        else
          match _copyToTuple TYPES 0 strValues with
          | None => (_records, Undefined)
          | Some rec => read TYPES separator lines' (_records ++ [rec])
          end
  end.

(** The constructor.  [file] is what a stream opened on [fileName]
    holds, [None] when it cannot be opened. *)
Definition CSVFileReader (TYPES : list VAL_TYPE) (fileName : string)
           (file : option string) (separator : ascii)
  : list record * completion :=
  match file with
  | None => ([], Thrown (cannot_open fileName))
  | Some content => read TYPES separator (getlines content) []
  end.

Definition size (_records : list record) : nat := List.length _records.

(** [cols()] is [sizeof...(TYPES)]. *)
Definition cols (TYPES : list VAL_TYPE) : nat := List.length TYPES.

End WithLibc.
End Hetero.

(** ** [CSVFileReader<TYPE>]: all columns of one type

    [_records.push_back(values)] puts a vector of strings into the
    store, so the one type is [std::string]. *)

Module Homo.

Definition record : Type := list string.

(** The [while] loop of the constructor; [numValues] is the constructor's
    parameter, which the first record sets when it is 0. *)
Fixpoint read (separator : ascii) (lines : list string) (numValues : nat)
         (_records : list record) : list record * completion :=
  match lines with
  | [] => (_records, Returned)
  | line :: lines' =>
      if skipped line then read separator lines' numValues _records
      else
        let values := Tokenizer.tokenize line separator in
        let numValues :=
          if Nat.eqb (List.length _records) 0 && Nat.eqb numValues 0
          then List.length values else numValues in
        if negb (Nat.eqb (List.length values) numValues) then
          let line := List.length _records + 1 in
          ([], Thrown (inconsistent line (List.length values) numValues))
        else read separator lines' numValues (_records ++ [values])
  end.

Definition CSVFileReader (fileName : string) (file : option string)
           (separator : ascii) (numValues : nat)
  : list record * completion :=
  match file with
  | None => ([], Thrown (cannot_open fileName))
  | Some content => read separator (getlines content) numValues []
  end.

Definition size (_records : list record) : nat := List.length _records.

(** [cols()] is [_records[0].size()]; [None] is the access to
    [_records[0]] outside the vector. *)
Definition cols (_records : list record) : option nat :=
  match nth_error _records 0 with
  | Some values => Some (List.length values)
  | None => None
  end.

End Homo.

(** ** Notions of the statements *)

(** A line the constructors parse: not empty and no comment. *)
Definition is_data (line : string) : bool := negb (skipped line).

(** The data lines of a file. *)
Definition data_lines (content : string) : list string :=
  filter is_data (getlines content).

(** The number of tokens of a line. *)
Definition token_count (separator : ascii) (line : string) : nat :=
  List.length (Tokenizer.tokenize line separator).

(** A data line whose token count is not [expected]. *)
Definition violates (separator : ascii) (expected : nat) (line : string)
  : bool :=
  is_data line && negb (Nat.eqb (token_count separator line) expected).

(** The column count a homogeneous store works with: the constructor's
    argument, or the token count of the first data line when the
    argument is 0. *)
Definition established (separator : ascii) (content : string)
           (numValues : nat) : nat :=
  if Nat.eqb numValues 0 then
    match data_lines content with
    | [] => 0
    | line :: _ => token_count separator line
    end
  else numValues.

(** The 1-based numbers, counting every line of the file, of the data
    lines whose token count is not [expected]. *)
Fixpoint violations (separator : ascii) (expected : nat)
         (lines : list string) (number : nat) : list nat :=
  match lines with
  | [] => []
  | line :: lines' =>
      if violates separator expected line
      then number :: violations separator expected lines' (S number)
      else violations separator expected lines' (S number)
  end.

Definition file_violations (separator : ascii) (expected : nat)
           (content : string) : list nat :=
  violations separator expected (getlines content) 1.

End CSV.

(* ================================================================== *)
(** * Properties file reader *)

Module Properties.
Import Str Exn Decoder.

(** [isspace] in the "C" locale: space and the characters 9 to 13. *)
Definition isspace (c : ascii) : bool :=
  let n := nat_of_ascii c in
  (Nat.leb 9 n && Nat.leb n 13) || Nat.eqb n 32.

(** [c < 0] for a signed [char]. *)
Definition negative (c : ascii) : bool := Nat.leb 128 (nat_of_ascii c).

(** [size_t] is 64 bits wide. *)
Definition modulus : N := 2 ^ 64.

(** [++i] and [--i] on a [size_t]. *)
Definition pre_incr (i : N) : N := ((i + 1) mod modulus)%N.
Definition pre_decr (i : N) : N := ((i + modulus - 1) mod modulus)%N.

(** [str[i]]: the character at [i], the terminating null character at
    [i = str.size()], and [None] for an access outside the string. *)
Definition char_at (str : string) (i : N) : option ascii :=
  match N.compare i (N.of_nat (length str)) with
  | Lt => String.get (N.to_nat i) str
  | Eq => Some zero
  | Gt => None
  end.

(** [str.substr(pos)]; [None] is [pos > str.size()], where the library
    throws [std::out_of_range]. *)
Definition substr_from (str : string) (pos : N) : option string :=
  if (pos <=? N.of_nat (length str))%N
  then Some (drop (N.to_nat pos) str) else None.

(** [str.erase(pos)]: the first [pos] characters are kept; [None] as for
    [substr_from]. *)
Definition erase (str : string) (pos : N) : option string :=
  if (pos <=? N.of_nat (length str))%N
  then Some (substr str 0 (N.to_nat pos)) else None.

(** The result of a piece of the constructor: a value, an exception, an
    access outside a string, or a loop cut off by its bound. *)
Inductive exec (A : Type) : Type :=
| Done (a : A)
| Raise (e : exception)
| OutOfBounds
| OutOfFuel.

Arguments Done {A} a.
Arguments Raise {A} e.
Arguments OutOfBounds {A}.
Arguments OutOfFuel {A}.

(** [while (line[i] != separator && i < line.length()) { ... ++i; }] *)
Fixpoint key_loop (fuel : nat) (line : string) (separator : ascii)
         (key : string) (i : N) : exec (string * N) :=
  match fuel with
  | 0 => OutOfFuel
  | S fuel' =>
      match char_at line i with
      | None => OutOfBounds
      | Some c =>
          if negb (Ascii.eqb c separator)
             && (i <? N.of_nat (length line))%N
          then
            key_loop fuel' line separator
                     (if negative c || negb (isspace c)
                      then push_back key c else key)
                     (pre_incr i)
          else Done (key, i)
      end
  end.

(** [while (line[++i] < 0 || isspace(line[i]));] *)
Fixpoint leading_loop (fuel : nat) (line : string) (i : N) : exec N :=
  match fuel with
  | 0 => OutOfFuel
  | S fuel' =>
      let i := pre_incr i in
      match char_at line i with
      | None => OutOfBounds
      | Some c =>
          if negative c || isspace c then leading_loop fuel' line i
          else Done i
      end
  end.

(** [while (value[--i] < 0 || isspace(value[i]));] *)
Fixpoint trailing_loop (fuel : nat) (value : string) (i : N) : exec N :=
  match fuel with
  | 0 => OutOfFuel
  | S fuel' =>
      let i := pre_decr i in
      match char_at value i with
      | None => OutOfBounds
      | Some c =>
          if negative c || isspace c then trailing_loop fuel' value i
          else Done i
      end
  end.

(** [key[0] == c] for a key that is not empty. *)
Definition starts_with (key : string) (c : ascii) : bool :=
  match key with
  | EmptyString => false
  | String a _ => Ascii.eqb a c
  end.

(** The test before [continue], "Not a property". *)
Definition not_a_property (key line : string) : bool :=
  Nat.eqb (length key) 0 || starts_with key "#" || starts_with key "!"
  || Nat.eqb (length key) (length line).

(** What the library says in the [std::out_of_range] of [substr] and
    [erase]; the text is the library's. *)
Definition library_text : string := "basic_string".

(** The body of the constructor's loop for one line: [Done None] is
    [continue], [Done (Some (key, value))] is the pair that is
    inserted.  Every loop moves its index by one in each pass and stops
    or leaves the string within [length + 2] passes. *)
Definition parse_line (line : string) (separator : ascii)
  : exec (option (string * string)) :=
  match key_loop (length line + 2) line separator EmptyString 0 with
  | Done (key, i) =>
      if not_a_property key line then Done None
      else
        match leading_loop (length line + 2) line i with
        | Done i =>
            match substr_from line i with
            | None => Raise (out_of_range library_text)
            | Some value =>
                let i := N.of_nat (length value) in
                match trailing_loop (length value + 2) value i with
                | Done i =>
                    match erase value (pre_incr i) with
                    | None => Raise (out_of_range library_text)
                    | Some value => Done (Some (key, value))
                    end
                | Raise e => Raise e
                | OutOfBounds => OutOfBounds
                | OutOfFuel => OutOfFuel
                end
            end
        | Raise e => Raise e
        | OutOfBounds => OutOfBounds
        | OutOfFuel => OutOfFuel
        end
  | Raise e => Raise e
  | OutOfBounds => OutOfBounds
  | OutOfFuel => OutOfFuel
  end.

(** [std::multimap<std::string, std::string>]: the pairs in the order of
    their keys, pairs of one key in the order of their insertion. *)
Definition multimap : Type := list (string * string).

(** [_properties.insert(kv)]: the pair goes to the upper bound of its
    key, before the first pair with a greater key. *)
Fixpoint insert (kv : string * string) (m : multimap) : multimap :=
  match m with
  | [] => [kv]
  | kv' :: m' =>
      if String.ltb (fst kv) (fst kv') then kv :: m
      else kv' :: insert kv m'
  end.

(** The loop of the constructor inside its [try] block; the handler
    throws what it catches again as a [std::runtime_error]. *)
Fixpoint read (separator : ascii) (lines : list string)
         (_properties : multimap) : exec multimap :=
  match lines with
  | [] => Done _properties
  | line :: lines' =>
      match parse_line line separator with
      | Done None => read separator lines' _properties
      | Done (Some kv) => read separator lines' (insert kv _properties)
      | Raise e => Raise (runtime_error (what e))
      | OutOfBounds => OutOfBounds
      | OutOfFuel => OutOfFuel
      end
  end.

(** The constructor; [file] as for the CSV readers. *)
Definition PropertiesFileReader (fileName : string) (file : option string)
           (separator : ascii) : exec multimap :=
  match file with
  | None => Raise (CSV.cannot_open fileName)
  | Some content => read separator (getlines content) []
  end.

(** The loop of [keys()]:
    [if (!res.size() || res.back() != kv.first) res.push_back(kv.first)]. *)
Fixpoint keys_loop (m : multimap) (res : list string) : list string :=
  match m with
  | [] => res
  | kv :: m' =>
      keys_loop m'
        (if Nat.eqb (List.length res) 0
            || negb (String.eqb (last res EmptyString) (fst kv))
         then res ++ [fst kv] else res)
  end.

Definition keys (_properties : multimap) : list string :=
  keys_loop _properties [].

(** [equal_range(key)]: from the first pair whose key is not less than
    [key] up to the first pair whose key is greater. *)
Fixpoint lower_bound (m : multimap) (key : string) : multimap :=
  match m with
  | [] => []
  | kv :: m' => if String.ltb (fst kv) key then lower_bound m' key else m
  end.

Fixpoint up_to_upper_bound (m : multimap) (key : string) : multimap :=
  match m with
  | [] => []
  | kv :: m' =>
      if String.ltb key (fst kv) then []
      else kv :: up_to_upper_bound m' key
  end.

Definition equal_range (m : multimap) (key : string) : multimap :=
  up_to_upper_bound (lower_bound m key) key.

(** [values<std::string>(key)] and [value<std::string>(key)]. *)
Definition values (_properties : multimap) (key : string) : list string :=
  map snd (equal_range _properties key).

Definition value (_properties : multimap) (key : string) : exec string :=
  match equal_range _properties key with
  | [] => Raise (out_of_range ("Property not found: " ++ key))
  | kv :: _ => Done (snd kv)
  end.

Section Typed.

Variable atof : string -> spec_float.
Variable atol : string -> Z.
Variable atoi : string -> Z.

(** [values<TYPE>(key)] and [value<TYPE>(key)] for the other types. *)
Definition values_as (T : VAL_TYPE) (_properties : multimap)
           (key : string) : list field :=
  map (fun kv => decode atof atol atoi T (snd kv))
      (equal_range _properties key).

Definition value_as (T : VAL_TYPE) (_properties : multimap)
           (key : string) : exec field :=
  match equal_range _properties key with
  | [] => Raise (out_of_range ("Property not found: " ++ key))
  | kv :: _ => Done (decode atof atol atoi T (snd kv))
  end.

End Typed.

(** ** Notions of the statements *)

(** The pairs the lines of a file give, in the order of the file. *)
Fixpoint parsed (separator : ascii) (lines : list string)
  : list (string * string) :=
  match lines with
  | [] => []
  | line :: lines' =>
      match parse_line line separator with
      | Done (Some kv) => kv :: parsed separator lines'
      | _ => parsed separator lines'
      end
  end.

(** The distinct keys of a sequence of pairs in the order in which each
    is first met. *)
Fixpoint first_insertion_order (seen : list string)
         (pairs : list (string * string)) : list string :=
  match pairs with
  | [] => []
  | kv :: pairs' =>
      if existsb (String.eqb (fst kv)) seen
      then first_insertion_order seen pairs'
      else fst kv :: first_insertion_order (fst kv :: seen) pairs'
  end.

(** The values of the pairs with the given key, in the order of the
    sequence. *)
Definition values_of (key : string) (pairs : list (string * string))
  : list string :=
  map snd (filter (fun kv => String.eqb (fst kv) key) pairs).

(** The text before the first separator (the whole line when there is
    none) and the text after it. *)
Fixpoint before (separator : ascii) (line : string) : string :=
  match line with
  | EmptyString => EmptyString
  | String c r =>
      if Ascii.eqb c separator then EmptyString
      else String c (before separator r)
  end.

Fixpoint after (separator : ascii) (line : string) : string :=
  match line with
  | EmptyString => EmptyString
  | String c r => if Ascii.eqb c separator then r else after separator r
  end.

(** A string without its whitespace. *)
Fixpoint strip (s : string) : string :=
  match s with
  | EmptyString => EmptyString
  | String c r => if isspace c then strip r else String c (strip r)
  end.

(** A string without its leading whitespace, without its trailing
    whitespace, and without both. *)
Fixpoint trim_left (s : string) : string :=
  match s with
  | EmptyString => EmptyString
  | String c r => if isspace c then trim_left r else s
  end.

Fixpoint trim_right (s : string) : string :=
  match s with
  | EmptyString => EmptyString
  | String c r =>
      match trim_right r with
      | EmptyString => if isspace c then EmptyString else String c EmptyString
      | r' => String c r'
      end
  end.

Definition trim (s : string) : string := trim_right (trim_left s).

(** The rule of the specification for one line: nothing for a line whose
    stripped key is empty or starts with '#' or '!' or that has no
    separator, otherwise the stripped key and the trimmed remainder. *)
Definition line_rule (line : string) (separator : ascii)
  : option (string * string) :=
  let key := strip (before separator line) in
  if Nat.eqb (length key) 0 || starts_with key "#" || starts_with key "!"
     || negb (Tokenizer.occurs separator line)
  then None
  else Some (key, trim (after separator line)).

(** The key [a] is not after the key [b] in the order of the store. *)
Definition leb (a b : string) : bool := negb (String.ltb b a).

(** The pairs are in the order of their keys. *)
Definition ordered (m : multimap) : Prop :=
  StronglySorted (fun a b => leb (fst a) (fst b) = true) m.

(** [m] after the insertion of the pairs of [pairs], one after another. *)
Definition insert_all (pairs : list (string * string)) (m : multimap)
  : multimap :=
  fold_left (fun m kv => insert kv m) pairs m.

(** The loop of [keys()] as a function of the last key pushed. *)
Fixpoint distinct (prev : option string) (m : multimap) : list string :=
  match m with
  | [] => []
  | kv :: m' =>
      match prev with
      | Some k =>
          if String.eqb k (fst kv) then distinct prev m'
          else fst kv :: distinct (Some (fst kv)) m'
      | None => fst kv :: distinct (Some (fst kv)) m'
      end
  end.

(** The test of the two loops that look for the value:
    [c < 0 || isspace(c)]. *)
Definition blank (c : ascii) : bool := negative c || isspace c.

(** A string without the blank characters at its start, and without
    those at its end. *)
Fixpoint skip_blank (s : string) : string :=
  match s with
  | EmptyString => EmptyString
  | String c r => if blank c then skip_blank r else s
  end.

Fixpoint cut_blank (s : string) : string :=
  match s with
  | EmptyString => EmptyString
  | String c r =>
      match cut_blank r with
      | EmptyString => if blank c then EmptyString else String c EmptyString
      | r' => String c r'
      end
  end.

(** The body of the constructor's loop as a function of the line, with
    no index and no loop: what [parse_line] computes
    ([ParseLineFacts.parse_line_outcome]). *)
Definition line_outcome (line : string) (separator : ascii)
  : exec (option (string * string)) :=
  let key := strip (before separator line) in
  if not_a_property key line then Done None
  else if negb (Tokenizer.occurs separator line) then OutOfBounds
  else match skip_blank (after separator line) with
       | EmptyString => OutOfBounds
       | value => Done (Some (key, cut_blank value))
       end.

(** No character of the string is outside ASCII. *)
Fixpoint ascii_only (s : string) : bool :=
  match s with
  | EmptyString => true
  | String c r => negb (negative c) && ascii_only r
  end.

(** The string is one a program can hold: its length and the length
    plus one are values of [size_t]. *)
Definition fits (s : string) : Prop :=
  (N.of_nat (length s) + 1 < modulus)%N.

(** No empty key and no empty value in the store. *)
Definition no_empty (m : multimap) : Prop :=
  Forall (fun kv => fst kv <> EmptyString /\ snd kv <> EmptyString) m.

End Properties.

(* ================================================================== *)
(** * Access to the rows of the CSV stores *)

Module Rows.
Import Str Exn Decoder CSV.

(** [operator[]] of both stores, [return _records[row]]: the vector's
    own [operator[]], which does not check [row]; [None] is the access
    outside the vector. *)
Definition operator_index {R : Type} (_records : list R) (row : nat)
  : option R :=
  nth_error _records row.

Section WithLibc.

Variable atof : string -> spec_float.
Variable atol : string -> Z.
Variable atoi : string -> Z.

(** A row of tokens with every token converted to the type declared
    for its column. *)
Definition decoded_row (TYPES : list VAL_TYPE) (tokens : list string)
  : Hetero.record :=
  map (fun p => decode atof atol atoi (fst p) (snd p))
      (combine TYPES tokens).

End WithLibc.

End Rows.

(* ================================================================== *)
(** * Shapes of lines, keys and values of the properties reader *)

Module Shape.
Import Str Properties.

(** Every character of the string passes the test. *)
Fixpoint all_chars (p : ascii -> bool) (s : string) : bool :=
  match s with
  | EmptyString => true
  | String c r => p c && all_chars p r
  end.

(** A line the loop body of the constructor handles inside its strings:
    one it discards, or one with the separator and a character that is
    not blank behind it. *)
Definition safe_line (separator : ascii) (line : string) : bool :=
  not_a_property (strip (before separator line)) line
  || (Tokenizer.occurs separator line
      && negb (String.eqb (skip_blank (after separator line)) EmptyString)).

End Shape.

(* ================================================================== *)
(** * The conversion routines of the C library *)

Module Libc.
Import Str Decoder Properties Shape.
Local Open Scope Z_scope.

(** [atoi], [atol] and [atof] are routines of the C library; the
    repository calls them and does not hold them.  The specification
    (4.2) says of the decode that it parses the leading numeric prefix
    of the token, that a token that is not numeric gives 0, and that it
    never fails.  The C library's documentation gives the rest, taken
    here as glibc has it in the "C" locale: leading whitespace is
    skipped, one sign is read, [atol] is [strtol] in base 10 and stays
    at [LONG_MIN] or [LONG_MAX] when the number is beyond them, [atoi]
    is that value converted to [int], and [atof] is [strtod], whose
    number is a decimal or a hexadecimal floating-point constant, "inf"
    or "nan", rounded to the nearest [double]. *)

(** Modelled from the spec: [isdigit], the test for a character of the
    leading numeric prefix. *)
Definition is_digit (c : ascii) : bool :=
  let n := nat_of_ascii c in Nat.leb 48 n && Nat.leb n 57.

(** Modelled from the spec: the value of a decimal digit. *)
Definition digit_value (c : ascii) : Z := Z.of_nat (nat_of_ascii c) - 48.

(** Modelled from the spec: the value of a hexadecimal digit. *)
Definition hex_value (c : ascii) : option Z :=
  let n := nat_of_ascii c in
  if Nat.leb 48 n && Nat.leb n 57 then Some (Z.of_nat n - 48)
  else if Nat.leb 97 n && Nat.leb n 102 then Some (Z.of_nat n - 87)
  else if Nat.leb 65 n && Nat.leb n 70 then Some (Z.of_nat n - 55)
  else None.

(** Modelled from the spec: [tolower]. *)
Definition to_lower (c : ascii) : ascii :=
  let n := nat_of_ascii c in
  if Nat.leb 65 n && Nat.leb n 90 then ascii_of_nat (n + 32) else c.

(** Modelled from the spec: the number a string of decimal digits
    writes, on top of [acc]. *)
Fixpoint number_from (acc : Z) (ds : string) : Z :=
  match ds with
  | EmptyString => acc
  | String c r => number_from (10 * acc + digit_value c) r
  end.

(** Modelled from the spec: the number a string of decimal digits
    writes. *)
Definition number (ds : string) : Z := number_from 0 ds.

(** Modelled from the spec: the leading numeric prefix, the decimal
    digits at the start of a string: the number they write on top of
    [acc], how many they are on top of [count], and what follows
    them. *)
Fixpoint digits (acc count : Z) (s : string) : Z * Z * string :=
  match s with
  | EmptyString => (acc, count, s)
  | String c r =>
      if is_digit c then digits (10 * acc + digit_value c) (count + 1) r
      else (acc, count, s)
  end.

(** Modelled from the spec: the same for hexadecimal digits. *)
Fixpoint hex_digits (acc count : Z) (s : string) : Z * Z * string :=
  match s with
  | EmptyString => (acc, count, s)
  | String c r =>
      match hex_value c with
      | Some v => hex_digits (16 * acc + v) (count + 1) r
      | None => (acc, count, s)
      end
  end.

(** Modelled from the spec: one sign at the start of a string: whether
    it is '-', and what follows it. *)
Definition sign (s : string) : bool * string :=
  match s with
  | EmptyString => (false, s)
  | String c r =>
      if Ascii.eqb c "-" then (true, r)
      else if Ascii.eqb c "+" then (false, r)
      else (false, s)
  end.

(** Modelled from the spec: a string without its leading whitespace
    ([isspace]). *)
Fixpoint skip_space (s : string) : string :=
  match s with
  | EmptyString => EmptyString
  | String c r => if isspace c then skip_space r else s
  end.

(** Modelled from the spec: the greatest [long]. *)
Definition LONG_MAX : Z := 2 ^ 63 - 1.

(** Modelled from the spec: the least [long]. *)
Definition LONG_MIN : Z := - 2 ^ 63.

(** Modelled from the spec: [strtol(nptr, NULL, 10)], the number of the
    leading numeric prefix, 0 without one, kept inside [long]. *)
Definition strtol (nptr : string) : Z :=
  let (negative, r) := sign (skip_space nptr) in
  let '(value, _, _) := digits 0 0 r in
  Z.max LONG_MIN (Z.min LONG_MAX (if negative then - value else value)).

(** Modelled from the spec: [atol], which is [strtol(nptr, NULL, 10)]. *)
Definition atol (nptr : string) : Z := strtol nptr.

(** Modelled from the spec: [atoi], which is
    [(int) strtol(nptr, NULL, 10)]. *)
Definition atoi (nptr : string) : Z := to_integer int_t (strtol nptr).

(** Modelled from the spec: the string starts with the word, letters of
    either case. *)
Fixpoint starts_with_word (word s : string) : bool :=
  match word, s with
  | EmptyString, _ => true
  | String _ _, EmptyString => false
  | String w word', String c s' =>
      Ascii.eqb (to_lower c) w && starts_with_word word' s'
  end.

(** Modelled from the spec: an exponent part: the marker ('e', or 'p' in
    a hexadecimal constant), one sign and at least one decimal digit.
    The exponent it writes; 0 when there is no exponent part. *)
Definition exponent (marker : ascii) (s : string) : Z :=
  match s with
  | EmptyString => 0
  | String c r =>
      if Ascii.eqb (to_lower c) marker then
        let (negative, r') := sign r in
        let '(value, count, _) := digits 0 0 r' in
        if count =? 0 then 0 else if negative then - value else value
      else 0
  end.

(** Modelled from the spec: the [double] nearest to [m] times 10 to the
    [e], with the given sign. *)
Definition scale10 (negative : bool) (m e : Z) : spec_float :=
  match m with
  | Zpos p =>
      if 0 <=? e
      then binary_round 53 1024 negative (Z.to_pos (m * 10 ^ e)) 0
      else SFdiv 53 1024 (S754_finite negative p 0)
                 (S754_finite false (Z.to_pos (10 ^ (- e))) 0)
  | _ => S754_zero negative
  end.

(** Modelled from the spec: the [double] nearest to [m] times 2 to the
    [e], with the given sign. *)
Definition scale2 (negative : bool) (m e : Z) : spec_float :=
  match m with
  | Zpos p => binary_round 53 1024 negative p e
  | _ => S754_zero negative
  end.

(** Modelled from the spec: a decimal constant at the start of [r]:
    digits with at most one point among them, at least one digit, and an
    exponent part. *)
Definition decimal (negative : bool) (r : string) : option spec_float :=
  let '(m1, n1, r1) := digits 0 0 r in
  let '(m, n2, r2) :=
    match r1 with
    | String c r' => if Ascii.eqb c "." then digits m1 0 r' else (m1, 0, r1)
    | EmptyString => (m1, 0, r1)
    end in
  if n1 + n2 =? 0 then None
  else Some (scale10 negative m (exponent "e" r2 - n2)).

(** Modelled from the spec: a hexadecimal constant at the start of [r]:
    "0x", hexadecimal digits with at most one point among them, at least
    one digit, and a binary exponent part. *)
Definition hexadecimal (negative : bool) (r : string) : option spec_float :=
  match r with
  | String z (String x r') =>
      if Ascii.eqb z "0" && Ascii.eqb (to_lower x) "x" then
        let '(m1, n1, r1) := hex_digits 0 0 r' in
        let '(m, n2, r2) :=
          match r1 with
          | String c r'' =>
              if Ascii.eqb c "." then hex_digits m1 0 r'' else (m1, 0, r1)
          | EmptyString => (m1, 0, r1)
          end in
        if n1 + n2 =? 0 then None
        else Some (scale2 negative m (exponent "p" r2 - 4 * n2))
      else None
  | _ => None
  end.

(** Modelled from the spec: [strtod(nptr, NULL)], the number of the
    leading numeric prefix; without a number at the start the result is
    the positive zero. *)
Definition strtod (nptr : string) : spec_float :=
  let (negative, r) := sign (skip_space nptr) in
  if starts_with_word "inf" r then S754_infinity negative
  else if starts_with_word "nan" r then S754_nan
  else
    match hexadecimal negative r with
    | Some x => x
    | None =>
        match decimal negative r with
        | Some x => x
        | None => S754_zero false
        end
    end.

(** Modelled from the spec: [atof], which is [strtod(nptr, NULL)]. *)
Definition atof (nptr : string) : spec_float := strtod nptr.

(** ** Notions of the statements *)









(** The [double] 12 and the [float] 12. *)
Definition twelve : spec_float := S754_finite false 6755399441055744 (-49).

End Libc.

(* ================================================================== *)
(** * Properties of the tokenizer *)

Module TokenizerFacts.
Import Str Tokenizer.

Lemma drop_length (pos : nat) (str : string) :
  length (drop pos str) = length str - pos.
Proof.
  revert str; induction pos as [|p IH]; intros [|a r]; simpl; auto.
Qed.

Lemma drop_drop (p q : nat) (str : string) :
  drop p (drop q str) = drop (q + p) str.
Proof.
  revert str; induction q as [|q IH]; intros str; simpl; auto.
  destruct str as [|a r]; simpl; auto. destruct p; reflexivity.
Qed.

Lemma find_drop (str : string) (c : ascii) (pos : nat) :
  find str c pos = option_map (fun k => pos + k) (find (drop pos str) c 0).
Proof.
  revert pos; induction str as [|a r IH]; intros [|p]; simpl; auto.
  - destruct (Ascii.eqb a c); auto. destruct (find r c 0); auto.
  - rewrite IH. destruct (find (drop p r) c 0); auto.
Qed.

Lemma substr_drop (str : string) (pos n : nat) :
  substr str pos n = substr (drop pos str) 0 n.
Proof.
  unfold substr. revert pos; induction str as [|a r IH]; intros [|p]; simpl; auto.
  - destruct n; reflexivity.
Qed.

Lemma substr_all (s : string) : substr s 0 (length s) = s.
Proof.
  unfold substr; induction s as [|a r IH]; simpl; congruence.
Qed.

(** No separator in [s]: one token, [s] itself. *)
Lemma split_on_none (c : ascii) (s : string) :
  find s c 0 = None -> split_on c s = [s].
Proof.
  induction s as [|a r IH]; simpl; auto.
  destruct (Ascii.eqb a c); [discriminate|].
  destruct (find r c 0); [discriminate|].
  intros _. rewrite IH; auto.
Qed.

(** First separator at [k]: the first token is the [k] characters
    before it, the others are the tokens of what follows it. *)
Lemma split_on_some (c : ascii) (s : string) (k : nat) :
  find s c 0 = Some k ->
  k < length s /\
  split_on c s = substr s 0 k :: split_on c (drop (k + 1) s).
Proof.
  revert k; induction s as [|a r IH]; simpl; [discriminate|].
  intros k. destruct (Ascii.eqb a c).
  - intros [= <-]. split; [lia|]. reflexivity.
  - destruct (find r c 0) as [j|]; [|discriminate].
    intros [= <-]. destruct (IH j eq_refl) as [Hj ->].
    split; [lia|]. reflexivity.
Qed.

Lemma loop_split (fuel : nat) (str : string) (sep : ascii) :
  forall init_pos tokens,
    init_pos <= length str ->
    length str - init_pos < fuel ->
    loop fuel str sep init_pos tokens
    = Some (tokens ++ split_on sep (drop init_pos str)).
Proof.
  induction fuel as [|fuel IH]; intros init_pos tokens Hle Hfuel; [lia|].
  simpl. rewrite find_drop.
  destruct (find (drop init_pos str) sep 0) as [k|] eqn:Hfind; simpl.
  - destruct (split_on_some _ _ _ Hfind) as [Hk Hsplit].
    rewrite drop_length in Hk.
    rewrite IH by lia.
    rewrite Hsplit, <- app_assoc. simpl.
    rewrite drop_drop.
    replace (init_pos + k - init_pos) with k by lia.
    rewrite (substr_drop str init_pos k).
    replace (init_pos + k + 1) with (init_pos + (k + 1)) by lia.
    reflexivity.
  - rewrite (split_on_none _ _ Hfind).
    rewrite substr_drop, <- drop_length, substr_all. reflexivity.
Qed.

(** The loop always finishes: the tokenizer is total. *)
Lemma run_total (str : string) (sep : ascii) :
  run str sep = Some (split_on sep str).
Proof.
  unfold run. rewrite loop_split by lia. reflexivity.
Qed.

Lemma tokenize_split (str : string) (sep : ascii) :
  tokenize str sep = split_on sep str.
Proof.
  unfold tokenize. rewrite run_total. reflexivity.
Qed.

Lemma split_on_nonempty (c : ascii) (s : string) : split_on c s <> [].
Proof.
  destruct s as [|a r]; simpl; [discriminate|].
  destruct (Ascii.eqb a c); [discriminate|].
  destruct (split_on c r); discriminate.
Qed.

Lemma join_split (c : ascii) (s : string) : join c (split_on c s) = s.
Proof.
  induction s as [|a r IH]; simpl; auto.
  destruct (Ascii.eqb_spec a c) as [->|Hne].
  - pose proof (split_on_nonempty c r).
    simpl. destruct (split_on c r) as [|t ts]; [congruence|].
    simpl. rewrite <- IH. reflexivity.
  - pose proof (split_on_nonempty c r).
    destruct (split_on c r) as [|t ts]; [congruence|].
    rewrite <- IH. destruct ts; reflexivity.
Qed.

Lemma split_on_no_sep (c : ascii) (s : string) :
  Forall (fun t => occurs c t = false) (split_on c s).
Proof.
  induction s as [|a r IH]; simpl.
  - constructor; auto.
  - destruct (Ascii.eqb a c) eqn:E.
    + constructor; auto.
    + destruct (split_on c r) as [|t ts].
      * constructor; auto. simpl. rewrite E. reflexivity.
      * inversion IH; subst. constructor; auto. simpl. rewrite E. auto.
Qed.

Lemma split_on_length (c : ascii) (s : string) :
  List.length (split_on c s) = S (count c s).
Proof.
  induction s as [|a r IH]; simpl; auto.
  destruct (Ascii.eqb a c); simpl; [congruence|].
  pose proof (split_on_nonempty c r).
  destruct (split_on c r) as [|t ts]; [congruence|]. simpl in *. lia.
Qed.

Lemma tokenize_length (str : string) (sep : ascii) :
  List.length (tokenize str sep) = S (count sep str).
Proof. rewrite tokenize_split. apply split_on_length. Qed.

(** C4.  For every string and separator the tokenizer finishes and its
    tokens are the substrings of the string split on every occurrence
    of the separator: they are [split_on], written back with the
    separator between them they give the string, none of them holds
    the separator, and there is one more of them than separators, so
    empty substrings are kept and the last token runs to the end of
    the string.  "a;;b" gives a, empty, b and "a;b;" gives a, b,
    empty. *)
Theorem tokenizer_splits :
  (forall (s : string) (c : ascii),
      run s c = Some (tokenize s c) /\
      tokenize s c = split_on c s /\
      join c (tokenize s c) = s /\
      Forall (fun t => occurs c t = false) (tokenize s c) /\
      List.length (tokenize s c) = S (count c s)) /\
  tokenize "a;;b" ";" = ["a"; ""; "b"] /\
  tokenize "a;b;" ";" = ["a"; "b"; ""] /\
  tokenize "" ";" = [""].
Proof.
  split; [|repeat split; reflexivity].
  intros s c. rewrite tokenize_split.
  repeat split.
  - apply run_total.
  - apply join_split.
  - apply split_on_no_sep.
  - apply split_on_length.
Qed.

End TokenizerFacts.
(* ================================================================== *)
(** * Properties of the CSV readers *)

Module CSVFacts.
Import Str Exn Decoder CSV.

Lemma token_count_pos (separator : ascii) (line : string) :
  0 < token_count separator line.
Proof.
  unfold token_count. rewrite TokenizerFacts.tokenize_length. lia.
Qed.

(** The first element of a list that satisfies a test splits the list. *)
Lemma first_such {A : Type} (p : A -> bool) (l : list A) :
  existsb p l = true ->
  exists pre x post,
    l = pre ++ x :: post /\ p x = true /\ forallb (fun y => negb (p y)) pre = true.
Proof.
  induction l as [|a l IH]; simpl; [discriminate|].
  destruct (p a) eqn:Ha; simpl.
  - intros _. exists [], a, l. auto.
  - intros H. destruct (IH H) as (pre & x & post & -> & Hx & Hpre).
    exists (a :: pre), x, post. simpl. rewrite Ha. auto.
Qed.

Lemma violates_false (separator : ascii) (expected : nat) (line : string) :
  negb (violates separator expected line) = true ->
  skipped line = false ->
  Nat.eqb (List.length (Tokenizer.tokenize line separator)) expected = true.
Proof.
  unfold violates, is_data, token_count. intros H Hs. rewrite Hs in H.
  simpl in H. destruct (Nat.eqb _ _); auto.
Qed.

Lemma violates_true (separator : ascii) (expected : nat) (line : string) :
  violates separator expected line = true ->
  skipped line = false /\
  Nat.eqb (List.length (Tokenizer.tokenize line separator)) expected = false.
Proof.
  unfold violates, is_data, token_count.
  destruct (skipped line); simpl; [discriminate|].
  destruct (Nat.eqb _ _); simpl; [discriminate|auto].
Qed.

(** Two exceptions that differ in the way the line number is written. *)
Ltac same_line_number :=
  match goal with
  | |- (_, Thrown (inconsistent ?a _ _)) = (_, Thrown (inconsistent ?b _ _)) =>
      replace a with b by lia; reflexivity
  end.

(** ** The store with declared column types *)

Section HeteroFacts.

Variable atof : string -> spec_float.
Variable atol : string -> Z.
Variable atoi : string -> Z.

Abbreviation _copyToTuple := (Hetero._copyToTuple atof atol atoi).
Abbreviation read := (Hetero.read atof atol atoi).

(** With enough tokens [_copyToTuple] stays inside [strValues]. *)
Lemma copy_in_range (TYPES : list VAL_TYPE) :
  forall POS strValues,
    POS + List.length TYPES <= List.length strValues ->
    exists tuple,
      _copyToTuple TYPES POS strValues = Some tuple /\
      List.length tuple = List.length TYPES.
Proof.
  induction TYPES as [|T TYPES IH]; intros POS strValues Hlen; simpl in *.
  - exists []. auto.
  - destruct (nth_error strValues POS) as [token|] eqn:Hnth.
    + destruct (IH (S POS) strValues) as (tuple & -> & Htuple); [lia|].
      eexists. split; [reflexivity|]. simpl. congruence.
    + apply nth_error_None in Hnth. lia.
Qed.

(** Lines without a violation: every data line becomes one record. *)
Lemma read_regular (TYPES : list VAL_TYPE) (separator : ascii) :
  forall lines _records,
    forallb (fun l => negb (violates separator (List.length TYPES) l)) lines
    = true ->
    exists recs,
      read TYPES separator lines _records = (_records ++ recs, Returned) /\
      List.length recs = List.length (filter is_data lines).
Proof.
  induction lines as [|line lines IH]; intros _records Hall; simpl in *.
  - exists []. rewrite app_nil_r. auto.
  - apply andb_true_iff in Hall as [Hline Hall].
    unfold is_data at 1. destruct (skipped line) eqn:Hskip; simpl.
    + apply IH; auto.
    + rewrite (violates_false _ _ _ Hline Hskip). simpl.
      pose proof (violates_false _ _ _ Hline Hskip) as Hn.
      apply Nat.eqb_eq in Hn.
      destruct (copy_in_range TYPES 0 (Tokenizer.tokenize line separator))
        as (tuple & -> & _); [lia|].
      destruct (IH (_records ++ [tuple]) Hall) as (recs & -> & Hrecs).
      exists (tuple :: recs). rewrite <- app_assoc. simpl. auto.
Qed.

(** The first violation: the records are dropped and the exception names
    the number of records read so far plus one. *)
Lemma read_violation (TYPES : list VAL_TYPE) (separator : ascii) :
  forall pre line post _records,
    forallb (fun l => negb (violates separator (List.length TYPES) l)) pre
    = true ->
    violates separator (List.length TYPES) line = true ->
    read TYPES separator (pre ++ line :: post) _records
    = ([], Thrown (inconsistent
                     (List.length _records
                      + List.length (filter is_data pre) + 1)
                     (token_count separator line) (List.length TYPES))).
Proof.
  induction pre as [|l pre IH]; intros line post _records Hpre Hline;
    simpl in *.
  - apply violates_true in Hline as [-> ->]. simpl.
    rewrite Nat.add_0_r. reflexivity.
  - apply andb_true_iff in Hpre as [Hl Hpre].
    unfold is_data at 1. destruct (skipped l) eqn:Hskip; simpl.
    + apply IH; auto.
    + pose proof (violates_false _ _ _ Hl Hskip) as Hn. rewrite Hn. simpl.
      apply Nat.eqb_eq in Hn.
      destruct (copy_in_range TYPES 0 (Tokenizer.tokenize l separator))
        as (tuple & -> & _); [lia|].
      rewrite IH by auto. rewrite length_app. simpl.
      same_line_number.
Qed.

End HeteroFacts.

(** ** The store with one column type *)

Lemma homo_read_regular (separator : ascii) (numValues : nat) :
  numValues <> 0 ->
  forall lines _records,
    forallb (fun l => negb (violates separator numValues l)) lines = true ->
    Homo.read separator lines numValues _records
    = (_records ++ map (fun l => Tokenizer.tokenize l separator)
                       (filter is_data lines), Returned).
Proof.
  intros Hnz. apply Nat.eqb_neq in Hnz.
  induction lines as [|line lines IH]; intros _records Hall; simpl in *.
  - rewrite app_nil_r. auto.
  - apply andb_true_iff in Hall as [Hline Hall].
    unfold is_data at 1. destruct (skipped line) eqn:Hskip; simpl.
    + apply IH; auto.
    + rewrite Hnz, andb_false_r.
      rewrite (violates_false _ _ _ Hline Hskip). simpl.
      rewrite IH by auto. rewrite <- app_assoc. reflexivity.
Qed.

Lemma homo_read_violation (separator : ascii) (numValues : nat) :
  numValues <> 0 ->
  forall pre line post _records,
    forallb (fun l => negb (violates separator numValues l)) pre = true ->
    violates separator numValues line = true ->
    Homo.read separator (pre ++ line :: post) numValues _records
    = ([], Thrown (inconsistent
                     (List.length _records
                      + List.length (filter is_data pre) + 1)
                     (token_count separator line) numValues)).
Proof.
  intros Hnz. apply Nat.eqb_neq in Hnz.
  induction pre as [|l pre IH]; intros line post _records Hpre Hline;
    simpl in *.
  - rewrite Hnz, andb_false_r.
    apply violates_true in Hline as [-> ->]. simpl.
    rewrite Nat.add_0_r. reflexivity.
  - apply andb_true_iff in Hpre as [Hl Hpre].
    unfold is_data at 1. destruct (skipped l) eqn:Hskip; simpl.
    + apply IH; auto.
    + rewrite Hnz, andb_false_r.
      rewrite (violates_false _ _ _ Hl Hskip). simpl.
      rewrite IH by auto. rewrite length_app. simpl.
      same_line_number.
Qed.

(** With the count left open the first data line sets it, and the rest
    of the file is read as with that count given. *)
Lemma homo_read_inferred (separator : ascii) :
  forall lines,
    Homo.read separator lines 0 []
    = match filter is_data lines with
      | [] => ([], Returned)
      | first :: _ =>
          Homo.read separator lines (token_count separator first) []
      end.
Proof.
  induction lines as [|line lines IH]; simpl; auto.
  unfold is_data at 1. destruct (skipped line) eqn:Hskip; simpl.
  - rewrite IH. destruct (filter is_data lines); auto.
  - fold (token_count separator line).
    pose proof (token_count_pos separator line) as Hpos.
    destruct (token_count separator line) as [|n] eqn:Hn; [lia|].
    simpl. rewrite Nat.eqb_refl. reflexivity.
Qed.

Lemma established_given (separator : ascii) (content : string)
      (numValues : nat) :
  numValues <> 0 -> established separator content numValues = numValues.
Proof.
  intros H. unfold established. apply Nat.eqb_neq in H. rewrite H. auto.
Qed.

Lemma data_lines_filter (content : string) :
  data_lines content = filter is_data (getlines content).
Proof. reflexivity. Qed.

Lemma exists_violation (separator : ascii) (expected : nat)
      (lines : list string) (line : string) :
  In line (filter is_data lines) ->
  token_count separator line <> expected ->
  existsb (violates separator expected) lines = true.
Proof.
  intros Hin Hne. apply filter_In in Hin as [Hin Hdata].
  apply existsb_exists. exists line. split; auto.
  unfold violates. rewrite Hdata. apply Nat.eqb_neq in Hne.
  rewrite Hne. reflexivity.
Qed.

Lemma no_violation (separator : ascii) (expected : nat)
      (lines : list string) :
  (forall line, In line (filter is_data lines) ->
                token_count separator line = expected) ->
  forallb (fun l => negb (violates separator expected l)) lines = true.
Proof.
  intros H. apply forallb_forall. intros l Hl.
  unfold violates. destruct (is_data l) eqn:Hd; auto. simpl.
  rewrite negb_involutive. apply Nat.eqb_eq. apply H.
  apply filter_In. auto.
Qed.

(** The first entry of [violations] splits the lines at the first
    violation. *)
Lemma first_violation (separator : ascii) (expected : nat) :
  forall lines number L rest,
    violations separator expected lines number = L :: rest ->
    exists pre line post,
      lines = pre ++ line :: post /\
      forallb (fun l => negb (violates separator expected l)) pre = true /\
      violates separator expected line = true /\
      L = number + List.length pre.
Proof.
  induction lines as [|l lines IH]; intros number L rest; cbn [violations].
  - discriminate.
  - destruct (violates separator expected l) eqn:Hl.
    + intros H. injection H as <- _.
      exists [], l, lines. cbn [app forallb List.length]. auto.
    + intros H. destruct (IH _ _ _ H) as (pre & x & post & -> & Hpre & Hx & ->).
      exists (l :: pre), x, post. cbn [app forallb List.length].
      rewrite Hl. cbn [negb andb]. repeat split; auto; lia.
Qed.

(** X10.  The number the constructor of the store with declared column
    types puts into the exception, against the number of the line in
    the file: with the first violation on line [L] of the file the
    exception names the number of data lines among the first [L - 1]
    lines, plus one, never more than [L]; then the token count of that
    line and the number of declared types. *)
Theorem hetero_reported_number
        (atof : string -> spec_float) (atol atoi : string -> Z)
        (TYPES : list VAL_TYPE) (fileName content : string)
        (separator : ascii) (L : nat) (rest : list nat) :
  file_violations separator (List.length TYPES) content = L :: rest ->
  exists pre line post,
    getlines content = pre ++ line :: post /\
    L = S (List.length pre) /\
    List.length (filter is_data pre) <= List.length pre /\
    Hetero.CSVFileReader atof atol atoi TYPES fileName (Some content)
                         separator
    = ([], Thrown (inconsistent (List.length (filter is_data pre) + 1)
                                (token_count separator line)
                                (List.length TYPES))).
Proof.
  unfold file_violations. intros H.
  apply first_violation in H as (pre & line & post & Heq & Hpre & Hline & ->).
  exists pre, line, post. split; [exact Heq|]. split; [reflexivity|].
  split; [apply filter_length_le|].
  cbn [Hetero.CSVFileReader]. rewrite Heq.
  rewrite (read_violation atof atol atoi TYPES separator
                          pre line post [] Hpre Hline).
  reflexivity.
Qed.

(** X11.  The same for the store of one type with a column count
    given: the exception names the number of data lines before the
    first violation, plus one, the token count of the line and the
    count given. *)
Theorem homo_reported_number
        (fileName content : string) (separator : ascii) (numValues : nat)
        (L : nat) (rest : list nat) :
  numValues <> 0 ->
  file_violations separator numValues content = L :: rest ->
  exists pre line post,
    getlines content = pre ++ line :: post /\
    L = S (List.length pre) /\
    List.length (filter is_data pre) <= List.length pre /\
    Homo.CSVFileReader fileName (Some content) separator numValues
    = ([], Thrown (inconsistent (List.length (filter is_data pre) + 1)
                                (token_count separator line) numValues)).
Proof.
  unfold file_violations. intros Hnz H.
  apply first_violation in H as (pre & line & post & Heq & Hpre & Hline & ->).
  exists pre, line, post. split; [exact Heq|]. split; [reflexivity|].
  split; [apply filter_length_le|].
  cbn [Homo.CSVFileReader]. rewrite Heq.
  rewrite (homo_read_violation separator numValues Hnz
                               pre line post [] Hpre Hline).
  reflexivity.
Qed.

End CSVFacts.

(* ================================================================== *)
(** * The CSV stores: what construction gives *)

Module CSVSpec.
Import Str Exn Decoder CSV CSVFacts.

Lemma no_such (A : Type) (p : A -> bool) (l : list A) :
  existsb p l = false -> forallb (fun y => negb (p y)) l = true.
Proof.
  induction l as [|a l IH]; simpl; auto.
  destruct (p a); simpl; [discriminate|auto].
Qed.

Lemma homo_read_no_data (separator : ascii) (numValues : nat) :
  forall lines _records,
    filter is_data lines = [] ->
    Homo.read separator lines numValues _records = (_records, Returned).
Proof.
  induction lines as [|line lines IH]; intros _records; simpl; auto.
  unfold is_data at 1. destruct (skipped line); simpl; [auto|discriminate].
Qed.

(** Reading with a given count either meets a violation and throws, or
    stores the tokens of every data line. *)
Lemma homo_read_cases (separator : ascii) (numValues : nat)
      (lines : list string) :
  numValues <> 0 ->
  (exists l v,
      Homo.read separator lines numValues []
      = ([], Thrown (inconsistent l v numValues))) \/
  (forallb (fun l => negb (violates separator numValues l)) lines = true /\
   Homo.read separator lines numValues []
   = (map (fun l => Tokenizer.tokenize l separator) (filter is_data lines),
      Returned)).
Proof.
  intros Hnz.
  destruct (existsb (violates separator numValues) lines) eqn:Hex.
  - left. apply first_such in Hex as (pre & x & post & -> & Hx & Hpre).
    rewrite (homo_read_violation separator numValues Hnz pre x post [] Hpre Hx).
    eauto.
  - right. apply no_such in Hex. split; auto.
    rewrite (homo_read_regular separator numValues Hnz lines [] Hex).
    reflexivity.
Qed.

(** C1.  A file in which every data line (not empty, not starting with
    '#' or '!') has exactly N tokens, read into a store with N declared
    column types: the constructor returns, [size()] is the number of
    data lines of the file and [cols()] is N. *)
Theorem hetero_regular_file
        (atof : string -> spec_float) (atol atoi : string -> Z)
        (TYPES : list VAL_TYPE) (N : nat)
        (fileName content : string) (separator : ascii) :
  List.length TYPES = N ->
  (forall line, In line (data_lines content) ->
                token_count separator line = N) ->
  exists _records,
    Hetero.CSVFileReader atof atol atoi TYPES fileName (Some content)
                         separator
    = (_records, Returned) /\
    Hetero.size _records = List.length (data_lines content) /\
    Hetero.cols TYPES = N.
Proof.
  intros HN Hall. subst N. simpl.
  destruct (read_regular atof atol atoi TYPES separator
                         (getlines content) [])
    as (recs & Hread & Hlen).
  - apply no_violation. exact Hall.
  - exists recs. simpl in Hread. auto.
Qed.

Lemma hetero_regular_file_witness :
  exists _records,
    Hetero.CSVFileReader (fun _ => S754_zero false) (fun _ => 0%Z) (fun _ => 0%Z)
      [integer int_t; std_string] "test.csv"
      (Some (text ["1;a"; "#c"; ""; "2;b"; ""])) ";"
    = (_records, Returned) /\
    Hetero.size _records = 2 /\
    Hetero.cols [integer int_t; std_string] = 2.
Proof.
  apply (hetero_regular_file (fun _ => S754_zero false) (fun _ => 0%Z) (fun _ => 0%Z)
           [integer int_t; std_string] 2 "test.csv"
           (text ["1;a"; "#c"; ""; "2;b"; ""]) ";").
  - reflexivity.
  - intros line Hin. vm_compute in Hin.
    destruct Hin as [<-|[<-|[]]]; reflexivity.
Defined.

(** C2.  A file with a data line whose token count is not the column
    count of the store (the number of declared types; for the store of
    one type the count given to the constructor, or the token count of
    the first data line when none is given): the constructor throws the
    [range_error] and the vector of records is empty when it does. *)
Theorem violation_discards_records
        (atof : string -> spec_float) (atol atoi : string -> Z) :
  (forall (TYPES : list VAL_TYPE) (fileName content : string)
          (separator : ascii) (line : string),
      In line (data_lines content) ->
      token_count separator line <> List.length TYPES ->
      exists l v,
        Hetero.CSVFileReader atof atol atoi TYPES fileName (Some content)
                             separator
        = ([], Thrown (inconsistent l v (List.length TYPES)))) /\
  (forall (fileName content : string) (separator : ascii)
          (numValues : nat) (line : string),
      In line (data_lines content) ->
      token_count separator line
      <> established separator content numValues ->
      exists l v,
        Homo.CSVFileReader fileName (Some content) separator numValues
        = ([], Thrown (inconsistent l v
                         (established separator content numValues)))).
Proof.
  split.
  - intros TYPES fileName content separator line Hin Hne. simpl.
    pose proof (exists_violation _ _ _ _ Hin Hne) as Hex.
    apply first_such in Hex as (pre & x & post & Heq & Hx & Hpre).
    rewrite Heq.
    rewrite (read_violation atof atol atoi TYPES separator
                            pre x post [] Hpre Hx).
    eauto.
  - intros fileName content separator numValues line Hin Hne. simpl.
    assert (Hcase : forall n, n <> 0 ->
              established separator content numValues = n ->
              Homo.read separator (getlines content) n []
              = Homo.read separator (getlines content) numValues [] ->
              exists l v,
                Homo.read separator (getlines content) numValues []
                = ([], Thrown (inconsistent l v
                         (established separator content numValues)))).
    { intros n Hnz Hest Hsame. rewrite Hest in *. rewrite <- Hsame.
      pose proof (exists_violation _ _ _ _ Hin Hne) as Hex.
      apply first_such in Hex as (pre & x & post & Heq & Hx & Hpre).
      rewrite Heq.
      rewrite (homo_read_violation separator n Hnz pre x post [] Hpre Hx).
      eauto. }
    destruct numValues as [|m].
    + unfold established in *. simpl in *.
      rewrite homo_read_inferred in *.
      unfold data_lines in *. fold is_data in *.
      destruct (filter is_data (getlines content)) as [|first rest] eqn:Hd.
      * destruct Hin.
      * apply (Hcase (token_count separator first)); auto.
        pose proof (token_count_pos separator first). lia.
    + apply (Hcase (S m)); auto.
Qed.

Lemma violation_discards_records_witness :
  (exists l v,
      Hetero.CSVFileReader (fun _ => S754_zero false) (fun _ => 0%Z) (fun _ => 0%Z)
        [integer int_t; std_string] "test.csv"
        (Some (text ["1;a"; "2;b;c"; "3;d"])) ";"
      = ([], Thrown (inconsistent l v 2))) /\
  (exists l v,
      Homo.CSVFileReader "test.csv" (Some (text ["1;a"; "2;b;c"; "3;d"]))
                         ";" 0
      = ([], Thrown (inconsistent l v 2))).
Proof.
  pose proof (violation_discards_records
                (fun _ => S754_zero false) (fun _ => 0%Z) (fun _ => 0%Z))
    as [Hhetero Hhomo].
  split.
  - apply (Hhetero [integer int_t; std_string] "test.csv"
                   (text ["1;a"; "2;b;c"; "3;d"]) ";"%char "2;b;c").
    + vm_compute. auto.
    + vm_compute. discriminate.
  - apply (Hhomo "test.csv" (text ["1;a"; "2;b;c"; "3;d"]) ";"%char 0 "2;b;c").
    + vm_compute. auto.
    + vm_compute. discriminate.
Defined.

(** C3.  The number in the text of the [range_error] is the number of
    records read so far plus one, not the number of the line in the
    file.  In the file with the lines "#c", "a;b", "x" the only line with
    a token count other than 2 is line 3 of the file, and both
    constructors say "Line 2". *)
Theorem error_names_record_number
        (atof : string -> spec_float) (atol atoi : string -> Z) :
  let content := text ["#c"; "a;b"; "x"] in
  let thrown :=
    Thrown (range_error
              "Inconsistent CSV file. Line 2 contains 1 values. Expected 2") in
  file_violations ";" 2 content = [3] /\
  Hetero.CSVFileReader atof atol atoi [std_string; std_string]
                       "test.csv" (Some content) ";"
  = ([], thrown) /\
  Homo.CSVFileReader "test.csv" (Some content) ";" 2 = ([], thrown) /\
  Homo.CSVFileReader "test.csv" (Some content) ";" 0 = ([], thrown).
Proof.
  repeat split; reflexivity.
Qed.

(** C6.  When the constructor of the store of one type returns with a
    column count given, it returns on the same file with the count left
    open (0) too, and the two stores have the same [size()] and the same
    [cols()]: they hold the same records. *)
Theorem explicit_then_inferred
        (fileName content : string) (separator : ascii) (C : nat)
        (_records : list Homo.record) :
  Homo.CSVFileReader fileName (Some content) separator C
  = (_records, Returned) ->
  exists _records',
    Homo.CSVFileReader fileName (Some content) separator 0
    = (_records', Returned) /\
    _records' = _records /\
    Homo.size _records' = Homo.size _records /\
    Homo.cols _records' = Homo.cols _records.
Proof.
  simpl. intros Hread. exists _records.
  split; [|auto].
  destruct C as [|c]; [exact Hread|].
  destruct (homo_read_cases separator (S c) (getlines content))
    as [(l & v & Hthrow)|[Hall Hok]]; [discriminate| |].
  - rewrite Hthrow in Hread. discriminate.
  - rewrite homo_read_inferred.
    destruct (filter is_data (getlines content)) as [|first rest] eqn:Hd.
    + rewrite Hok in Hread. try rewrite Hd in Hread. simpl in Hread.
      exact Hread.
    + assert (Hfirst : token_count separator first = S c).
      { assert (Hin : In first (filter is_data (getlines content)))
          by (rewrite Hd; left; reflexivity).
        apply filter_In in Hin as [Hin Hdata].
        rewrite forallb_forall in Hall. specialize (Hall first Hin).
        unfold violates in Hall. rewrite Hdata in Hall. simpl in Hall.
        rewrite negb_involutive in Hall. apply Nat.eqb_eq. exact Hall. }
      rewrite Hfirst. exact Hread.
Qed.

Lemma explicit_then_inferred_witness :
  exists _records',
    Homo.CSVFileReader "test.csv" (Some (text ["a;b"; "#c"; "d;e"; ""])) ";" 0
    = (_records', Returned) /\
    _records' = [["a"; "b"]; ["d"; "e"]] /\
    Homo.size _records' = Homo.size [["a"; "b"]; ["d"; "e"]] /\
    Homo.cols _records' = Homo.cols [["a"; "b"]; ["d"; "e"]].
Proof.
  apply (explicit_then_inferred "test.csv" (text ["a;b"; "#c"; "d;e"; ""])
                                ";" 2 [["a"; "b"]; ["d"; "e"]]).
  reflexivity.
Defined.

(** C10.  [cols()] of the store of one type is the length of record 0;
    the access to record 0 is inside the vector exactly when [size()] is
    more than 0; on a file without data lines the constructor returns a
    store without records, and there the access of [cols()] is outside
    the vector. *)
Theorem cols_needs_a_record :
  (forall _records : list Homo.record,
      Homo.cols _records
      = option_map (@List.length string) (nth_error _records 0)) /\
  (forall _records : list Homo.record,
      (exists n, Homo.cols _records = Some n) <-> 0 < Homo.size _records) /\
  (forall (fileName content : string) (separator : ascii) (numValues : nat),
      data_lines content = [] ->
      Homo.CSVFileReader fileName (Some content) separator numValues
      = ([], Returned) /\
      Homo.size [] = 0 /\
      Homo.cols [] = None).
Proof.
  split; [|split].
  - intros [|values _records]; reflexivity.
  - intros [|values _records]; unfold Homo.cols, Homo.size; simpl; split.
    + intros [n Hn]. discriminate.
    + lia.
    + lia.
    + eauto.
  - intros fileName content separator numValues Hnone.
    split; [|split; reflexivity].
    simpl. apply homo_read_no_data. exact Hnone.
Qed.

Lemma cols_needs_a_record_witness :
  Homo.CSVFileReader "test.csv" (Some (text ["#c"; ""; "!d"; ""])) ";" 0
  = ([], Returned) /\
  Homo.size [] = 0 /\
  Homo.cols [] = None.
Proof.
  apply (proj2 (proj2 cols_needs_a_record)). reflexivity.
Defined.

End CSVSpec.

(* ================================================================== *)
(** * Properties of the properties store *)

Module StringOrder.
Import Properties.

(** The order of [std::less<std::string>]: [String.ltb]. *)

Lemma ltb_lt (a b : string) :
  String.ltb a b = true <-> String_as_OT.lt a b.
Proof.
  unfold String.ltb. rewrite <- String_as_OT.cmp_lt.
  unfold String_as_OT.cmp. destruct (String.compare a b); split;
    congruence.
Qed.

Lemma ltb_trans (a b c : string) :
  String.ltb a b = true -> String.ltb b c = true -> String.ltb a c = true.
Proof.
  rewrite !ltb_lt. apply String_as_OT.lt_trans.
Qed.

Lemma ltb_asym (a b : string) :
  String.ltb a b = true -> String.ltb b a = false.
Proof.
  unfold String.ltb. rewrite (String.compare_antisym a b).
  destruct (String.compare b a); simpl; congruence.
Qed.

Lemma ltb_irrefl (a : string) : String.ltb a a = false.
Proof.
  destruct (String.ltb a a) eqn:H; auto.
  pose proof (ltb_asym _ _ H). congruence.
Qed.

(** Not less: equal or greater. *)
Lemma not_ltb (a b : string) :
  String.ltb b a = false -> a = b \/ String.ltb a b = true.
Proof.
  unfold String.ltb. rewrite (String.compare_antisym a b).
  destruct (String.compare b a) eqn:H; simpl; try congruence; auto.
  left. symmetry. apply String.compare_eq_iff. exact H.
Qed.

Lemma leb_refl (a : string) : leb a a = true.
Proof. unfold leb. rewrite ltb_irrefl. reflexivity. Qed.

Lemma leb_cases (a b : string) :
  leb a b = true <-> a = b \/ String.ltb a b = true.
Proof.
  unfold leb. split.
  - intros H. apply not_ltb. destruct (String.ltb b a); auto; discriminate.
  - intros [->|H]; [rewrite ltb_irrefl|rewrite (ltb_asym _ _ H)]; auto.
Qed.

Lemma leb_trans (a b c : string) :
  leb a b = true -> leb b c = true -> leb a c = true.
Proof.
  rewrite !leb_cases. intros [->|Hab] [->|Hbc]; auto.
  right. eapply ltb_trans; eauto.
Qed.

Lemma ltb_leb_trans (a b c : string) :
  String.ltb a b = true -> leb b c = true -> String.ltb a c = true.
Proof.
  rewrite leb_cases. intros Hab [->|Hbc]; auto. eapply ltb_trans; eauto.
Qed.

Lemma leb_ltb_trans (a b c : string) :
  leb a b = true -> String.ltb b c = true -> String.ltb a c = true.
Proof.
  rewrite leb_cases. intros [->|Hab] Hbc; auto. eapply ltb_trans; eauto.
Qed.

Lemma ltb_neq (a b : string) : String.ltb a b = true -> a <> b.
Proof. intros H ->. rewrite ltb_irrefl in H. discriminate. Qed.

End StringOrder.

Module MultimapFacts.
Import Str Exn Properties StringOrder.

Lemma insert_In (kv x : string * string) (m : multimap) :
  In x (insert kv m) <-> x = kv \/ In x m.
Proof.
  induction m as [|kv' m IH]; simpl.
  - intuition.
  - destruct (String.ltb (fst kv) (fst kv')); simpl.
    + intuition.
    + rewrite IH. intuition.
Qed.

Lemma insert_ordered (kv : string * string) (m : multimap) :
  ordered m -> ordered (insert kv m).
Proof.
  unfold ordered. induction m as [|kv' m IH]; simpl; intros Hm.
  - constructor; constructor.
  - inversion Hm as [|? ? Hm' Hall]; subst.
    destruct (String.ltb (fst kv) (fst kv')) eqn:Hlt.
    + constructor; auto. constructor.
      * apply leb_cases. auto.
      * eapply Forall_impl; [|exact Hall]. intros x Hx. simpl in *.
        apply leb_cases. right. eapply ltb_leb_trans; eauto.
    + constructor; auto.
      apply Forall_forall. intros x Hx. apply insert_In in Hx as [->|Hx].
      * unfold leb. rewrite Hlt. reflexivity.
      * rewrite Forall_forall in Hall. auto.
Qed.

Lemma insert_all_ordered (pairs : list (string * string)) :
  forall m, ordered m -> ordered (insert_all pairs m).
Proof.
  induction pairs as [|kv pairs IH]; simpl; auto.
  intros m Hm. apply IH. apply insert_ordered. exact Hm.
Qed.

(** A pair goes behind the pairs of its key: the pairs of any one key
    are those of [m] followed by the new pair. *)
Lemma insert_filter (key : string) (kv : string * string) (m : multimap) :
  ordered m ->
  filter (fun x => String.eqb (fst x) key) (insert kv m)
  = filter (fun x => String.eqb (fst x) key) (m ++ [kv]).
Proof.
  unfold ordered. induction m as [|kv' m IH]; simpl; intros Hm; auto.
  inversion Hm as [|? ? Hm' Hall]; subst.
  destruct (String.ltb (fst kv) (fst kv')) eqn:Hlt; simpl.
  - (* every pair from [kv'] on has a key greater than that of [kv] *)
    destruct (String.eqb_spec (fst kv) key) as [Hk|Hk].
    + assert (Hnone : forall l,
                 Forall (fun b : string * string => String.ltb (fst kv) (fst b) = true) l ->
                 filter (fun x => String.eqb (fst x) key) l = []).
      { induction l as [|b l IHl]; simpl; auto. intros Hl.
        pose proof (Forall_inv Hl) as Hb0.
        pose proof (Forall_inv_tail Hl) as Hl'. simpl in Hb0.
        destruct (String.eqb_spec (fst b) key) as [Hb|Hb]; auto.
        exfalso. apply (ltb_neq (fst kv) (fst b)); congruence. }
      assert (Hgt : Forall (fun b : string * string => String.ltb (fst kv) (fst b) = true)
                           (kv' :: m)).
      { constructor; auto. eapply Forall_impl; [|exact Hall].
        intros b Hb. simpl in Hb. eapply ltb_leb_trans; eauto. }
      pose proof (Hnone _ Hgt) as Hnil. simpl in Hnil.
      rewrite filter_app. simpl.
      destruct (String.eqb (fst kv') key).
      * discriminate.
      * rewrite Hnil. simpl.
        destruct (String.eqb_spec (fst kv) key); congruence.
    + rewrite filter_app. simpl.
      destruct (String.eqb_spec (fst kv) key); [congruence|].
      rewrite app_nil_r. reflexivity.
  - rewrite IH by auto. reflexivity.
Qed.

Lemma insert_all_filter (key : string) (pairs : list (string * string)) :
  forall m,
    ordered m ->
    filter (fun x => String.eqb (fst x) key) (insert_all pairs m)
    = filter (fun x => String.eqb (fst x) key) (m ++ pairs).
Proof.
  induction pairs as [|kv pairs IH]; simpl; intros m Hm.
  - rewrite app_nil_r. reflexivity.
  - rewrite IH by (apply insert_ordered; exact Hm).
    rewrite !filter_app. rewrite insert_filter by exact Hm.
    rewrite filter_app. simpl. rewrite <- app_assoc.
    destruct (String.eqb (fst kv) key); reflexivity.
Qed.

Lemma insert_all_In (x : string * string) (pairs : list (string * string)) :
  forall m, In x (insert_all pairs m) <-> In x m \/ In x pairs.
Proof.
  induction pairs as [|kv pairs IH]; simpl; intros m.
  - intuition.
  - rewrite IH, insert_In. intuition.
Qed.

Lemma filter_none {A : Type} (p : A -> bool) (l : list A) :
  (forall x, In x l -> p x = false) -> filter p l = [].
Proof.
  induction l as [|a l IH]; simpl; auto. intros H.
  rewrite (H a) by auto. apply IH. intros x Hx. apply H. auto.
Qed.

(** In an ordered store [equal_range] is the pairs with the key. *)
Lemma equal_range_filter (key : string) (m : multimap) :
  ordered m ->
  equal_range m key = filter (fun x => String.eqb (fst x) key) m.
Proof.
  unfold ordered, equal_range. induction m as [|kv m IH]; simpl; auto.
  intros Hm. inversion Hm as [|? ? Hm' Hall]; subst.
  destruct (String.ltb (fst kv) key) eqn:Hlt.
  - rewrite IH by auto.
    destruct (String.eqb_spec (fst kv) key) as [Hk|Hk]; auto.
    apply ltb_neq in Hlt. contradiction.
  - simpl. destruct (String.ltb key (fst kv)) eqn:Hgt.
    + destruct (String.eqb_spec (fst kv) key) as [Hk|Hk].
      * apply ltb_neq in Hgt. congruence.
      * symmetry. apply filter_none. intros b Hb.
        rewrite Forall_forall in Hall. specialize (Hall b Hb). simpl in Hall.
        destruct (String.eqb_spec (fst b) key) as [Hbk|Hbk]; auto.
        pose proof (ltb_leb_trans _ _ _ Hgt Hall) as Hlt'.
        apply ltb_neq in Hlt'. congruence.
    + destruct (not_ltb _ _ Hlt) as [Hk|Hk]; [|congruence].
      subst key. rewrite String.eqb_refl. f_equal.
      (* the pairs behind [kv] are not less than its key *)
      clear IH Hm Hlt Hgt.
      induction m as [|b m IHm]; simpl; auto.
      inversion Hall as [|? ? Hb Hall']; subst. simpl in Hb.
      inversion Hm' as [|? ? Hm'' Hbm]; subst.
      destruct (String.ltb (fst kv) (fst b)) eqn:Hkb.
      * destruct (String.eqb_spec (fst b) (fst kv)) as [Hbk|Hbk].
        { apply ltb_neq in Hkb. congruence. }
        symmetry. apply filter_none. intros c Hc.
        rewrite Forall_forall in Hbm. specialize (Hbm c Hc). simpl in Hbm.
        destruct (String.eqb_spec (fst c) (fst kv)) as [Hck|Hck]; auto.
        pose proof (ltb_leb_trans _ _ _ Hkb Hbm) as Hlt'.
        apply ltb_neq in Hlt'. congruence.
      * destruct (not_ltb _ _ Hkb) as [Hk|Hk].
        { rewrite Hk, String.eqb_refl. f_equal. apply IHm; auto. }
        unfold leb in Hb. rewrite Hk in Hb. discriminate.
Qed.

Lemma values_filter (key : string) (m : multimap) :
  ordered m -> values m key = values_of key m.
Proof.
  intros Hm. unfold values, values_of. rewrite equal_range_filter by exact Hm.
  reflexivity.
Qed.

(** ** [keys()] *)

(** The last key pushed to [res], if any. *)
Lemma keys_loop_distinct (m : multimap) :
  forall res,
    keys_loop m res
    = res ++ distinct (match res with
                       | [] => None
                       | _ => Some (last res EmptyString)
                       end) m.
Proof.
  induction m as [|kv m IH]; intros res; simpl.
  - rewrite app_nil_r. reflexivity.
  - destruct res as [|r res].
    + simpl. rewrite IH. reflexivity.
    + remember (r :: res) as res' eqn:Hres.
      assert (Hlen : Nat.eqb (List.length res') 0 = false)
        by (subst res'; reflexivity).
      rewrite Hlen. simpl.
      assert (Hsome : match res' with
                      | [] => None
                      | _ => Some (last res' EmptyString)
                      end = Some (last res' EmptyString))
        by (subst res'; reflexivity).
      destruct (String.eqb (last res' EmptyString) (fst kv)); simpl.
      * rewrite IH, Hsome. reflexivity.
      * rewrite IH. rewrite last_last.
        destruct (res' ++ [fst kv]) eqn:Happ.
        { destruct res'; discriminate. }
        rewrite <- Happ, <- app_assoc. reflexivity.
Qed.

Lemma keys_distinct (m : multimap) : keys m = distinct None m.
Proof. unfold keys. rewrite keys_loop_distinct. reflexivity. Qed.

(** The keys [distinct] gives are the keys of the store other than
    the last key pushed, when no key of the store is before that one. *)
Lemma distinct_In (m : multimap) :
  ordered m ->
  forall prev x,
    (forall k, prev = Some k ->
               Forall (fun kv : string * string => leb k (fst kv) = true) m) ->
    (In x (distinct prev m) <-> In x (map fst m) /\ prev <> Some x).
Proof.
  unfold ordered. induction m as [|kv m IH]; intros Hm prev x Hprev.
  - simpl. tauto.
  - inversion Hm as [|? ? Hm' Hall]; subst.
    assert (Hnext : forall k, Some (fst kv) = Some k ->
              Forall (fun b : string * string => leb k (fst b) = true) m).
    { intros k [= <-]. exact Hall. }
    assert (Hafter : In x (map fst m) -> leb (fst kv) x = true).
    { intros Hin. apply in_map_iff in Hin as (b & <- & Hb).
      rewrite Forall_forall in Hall. apply Hall. exact Hb. }
    destruct prev as [k|]; simpl.
    + pose proof (Forall_inv (Hprev k eq_refl)) as Hk. simpl in Hk.
      destruct (String.eqb_spec k (fst kv)) as [Heq|Hne].
      * rewrite (IH Hm' (Some k) x).
        -- subst k. split.
           ++ intros [Hin Hx]. auto.
           ++ intros [[Hx|Hin] Hp]; [congruence|auto].
        -- intros k' [= <-]. exact (Forall_inv_tail (Hprev k eq_refl)).
      * simpl. rewrite (IH Hm' (Some (fst kv)) x Hnext).
        apply leb_cases in Hk as [Hk|Hk]; [contradiction|].
        split.
        -- intros [<-|[Hin Hx]].
           ++ split; auto. intros [= ->]. contradiction.
           ++ split; auto. intros [= ->].
              pose proof (ltb_leb_trans _ _ _ Hk (Hafter Hin)) as Hlt.
              apply ltb_neq in Hlt. contradiction.
        -- intros [[Hx|Hin] Hp]; auto.
           destruct (string_dec (fst kv) x) as [Hd|Hd]; auto.
           right. split; auto. congruence.
    + rewrite (IH Hm' (Some (fst kv)) x Hnext).
      split.
      * intros [<-|[Hin Hx]]; split; auto; discriminate.
      * intros [[Hx|Hin] _]; auto.
        destruct (string_dec (fst kv) x) as [Hd|Hd]; auto.
        right. split; auto. congruence.
Qed.

Lemma distinct_above (m : multimap) (k : string) :
  ordered m ->
  Forall (fun kv : string * string => leb k (fst kv) = true) m ->
  Forall (fun x => String.ltb k x = true) (distinct (Some k) m).
Proof.
  intros Hm Hk. apply Forall_forall. intros x Hx.
  apply (distinct_In m Hm (Some k) x) in Hx.
  - destruct Hx as [Hin Hne].
    apply in_map_iff in Hin as (b & <- & Hb).
    rewrite Forall_forall in Hk. specialize (Hk b Hb). simpl in Hk.
    apply leb_cases in Hk as [Hk|Hk]; auto. congruence.
  - intros k' [= <-]. exact Hk.
Qed.

Lemma distinct_increasing (m : multimap) :
  ordered m ->
  forall prev,
    (forall k, prev = Some k ->
               Forall (fun kv : string * string => leb k (fst kv) = true) m) ->
    StronglySorted (fun a b => String.ltb a b = true) (distinct prev m).
Proof.
  unfold ordered. induction m as [|kv m IH]; intros Hm prev Hprev; simpl.
  - constructor.
  - inversion Hm as [|? ? Hm' Hall]; subst.
    assert (Hcons : StronglySorted (fun a b => String.ltb a b = true)
                      (fst kv :: distinct (Some (fst kv)) m)).
    { constructor.
      - apply IH; auto. intros k [= <-]. exact Hall.
      - apply distinct_above; auto. }
    destruct prev as [k|]; auto.
    destruct (String.eqb k (fst kv)); auto.
    apply IH; auto. intros k' [= <-].
    exact (Forall_inv_tail (Hprev k eq_refl)).
Qed.

(** A list in strictly increasing order has no element twice. *)
Lemma increasing_NoDup (l : list string) :
  StronglySorted (fun a b => String.ltb a b = true) l -> NoDup l.
Proof.
  induction 1 as [|a l Hl IH Ha]; constructor; auto.
  intros Hin. rewrite Forall_forall in Ha. specialize (Ha a Hin).
  rewrite ltb_irrefl in Ha. discriminate.
Qed.

(** ** The store a file gives *)

Lemma read_insert_all (separator : ascii) (lines : list string) :
  forall m m',
    read separator lines m = Done m' ->
    m' = insert_all (parsed separator lines) m.
Proof.
  induction lines as [|line lines IH]; intros m m'; simpl.
  - intros [= <-]. reflexivity.
  - destruct (parse_line line separator) as [[kv|]|e| |]; try discriminate.
    + intros H. apply IH in H. exact H.
    + apply IH.
Qed.

Lemma nil_ordered : ordered [].
Proof. constructor. Qed.

End MultimapFacts.

(* ================================================================== *)
(** * The loop body of the properties reader, line by line *)

Module ParseLineFacts.
Import Str Exn Properties.
Local Open Scope string_scope.

(** ** Strings *)

Lemma append_empty (s : string) : s ++ EmptyString = s.
Proof. induction s as [|c s IH]; simpl; congruence. Qed.

Lemma append_assoc (s t u : string) : (s ++ t) ++ u = s ++ (t ++ u).
Proof. induction s as [|c s IH]; simpl; congruence. Qed.

Lemma append_length (s t : string) : length (s ++ t) = length s + length t.
Proof. induction s as [|c s IH]; simpl; congruence. Qed.

Lemma drop_all (s : string) : drop (length s) s = EmptyString.
Proof. induction s as [|c s IH]; simpl; auto. Qed.

Lemma drop_next (p : nat) (s : string) (c : ascii) (r : string) :
  drop p s = String c r -> drop (S p) s = r /\ p < length s.
Proof.
  revert s; induction p as [|p IH]; intros [|a s]; simpl; try discriminate.
  - intros H. injection H as Ha Hs. split; [exact Hs|lia].
  - intros H. destruct (IH s H) as [Hd Hp]. split; [|lia].
    destruct s; simpl in *; exact Hd.
Qed.

Lemma get_drop (p : nat) (s : string) (c : ascii) (r : string) :
  drop p s = String c r -> String.get p s = Some c.
Proof.
  revert s; induction p as [|p IH]; intros [|a s]; simpl; try discriminate.
  - intros H. injection H as Ha Hs. congruence.
  - apply IH.
Qed.

Lemma substr_length (s : string) (n : nat) :
  n <= length s -> length (substr s 0 n) = n.
Proof.
  unfold substr. revert n; induction s as [|c s IH]; intros [|n]; simpl;
    auto; try lia.
  intros H. rewrite IH; lia.
Qed.

Lemma substr_none (s : string) : substr s 0 0 = EmptyString.
Proof. destruct s; reflexivity. Qed.

(** One more character of a prefix. *)
Lemma substr_next (s : string) (n : nat) :
  n < length s ->
  exists c, String.get n s = Some c /\
            substr s 0 (S n) = substr s 0 n ++ String c EmptyString.
Proof.
  unfold substr. revert n; induction s as [|a s IH]; simpl; [lia|].
  intros [|n] Hn.
  - exists a. split; [reflexivity|].
    simpl. fold (substr s 0 0). rewrite substr_none. reflexivity.
  - destruct (IH n) as (c & Hget & Hsub); [lia|].
    exists c. split; [exact Hget|].
    change (String a (substring 0 (S n) s)
            = String a (substring 0 n s ++ String c EmptyString)).
    rewrite Hsub. reflexivity.
Qed.

(** ** Characters *)

Lemma isspace_not_negative (c : ascii) :
  isspace c = true -> negative c = false.
Proof.
  unfold isspace, negative.
  destruct (Nat.leb_spec 128 (nat_of_ascii c)) as [H|H]; auto.
  destruct (Nat.leb_spec (nat_of_ascii c) 13) as [H1|H1];
    [lia|rewrite andb_false_r; simpl].
  destruct (Nat.eqb_spec (nat_of_ascii c) 32); [lia|discriminate].
Qed.

Lemma kept_in_key (c : ascii) :
  negative c || negb (isspace c) = negb (isspace c).
Proof.
  destruct (isspace c) eqn:H; simpl.
  - rewrite (isspace_not_negative c H). reflexivity.
  - apply orb_true_r.
Qed.

Lemma zero_not_blank : blank zero = false.
Proof. reflexivity. Qed.

(** ** Indices *)

Lemma char_at_inside (p : nat) (s : string) (c : ascii) (r : string) :
  drop p s = String c r -> char_at s (N.of_nat p) = Some c.
Proof.
  intros H. unfold char_at.
  destruct (drop_next p s c r H) as [_ Hp].
  assert (Hlt : (N.of_nat p < N.of_nat (length s))%N) by lia.
  rewrite (proj2 (N.compare_lt_iff _ _) Hlt).
  rewrite Nat2N.id. apply (get_drop p s c r H).
Qed.

Lemma char_at_end (s : string) :
  char_at s (N.of_nat (length s)) = Some zero.
Proof. unfold char_at. rewrite N.compare_refl. reflexivity. Qed.

Lemma char_at_outside (s : string) (i : N) :
  (N.of_nat (length s) < i)%N -> char_at s i = None.
Proof.
  intros H. unfold char_at.
  rewrite (proj2 (N.compare_gt_iff _ _) H). reflexivity.
Qed.

Lemma pre_incr_inside (s : string) (p : nat) :
  fits s -> p <= length s -> pre_incr (N.of_nat p) = N.of_nat (S p).
Proof.
  unfold fits, pre_incr. intros Hfit Hp.
  rewrite N.mod_small by lia. lia.
Qed.

Lemma pre_decr_inside (s : string) (p : nat) :
  fits s -> S p <= length s -> pre_decr (N.of_nat (S p)) = N.of_nat p.
Proof.
  unfold fits, pre_decr. intros Hfit Hp.
  replace (N.of_nat (S p) + modulus - 1)%N
    with (N.of_nat p + 1 * modulus)%N by lia.
  rewrite N.Div0.mod_add. rewrite N.mod_small by lia. reflexivity.
Qed.

Lemma pre_decr_zero (s : string) :
  fits s -> (N.of_nat (length s) < pre_decr 0)%N.
Proof.
  unfold fits. intros Hfit.
  replace (pre_decr 0) with (modulus - 1)%N by reflexivity. lia.
Qed.

(** ** The three loops *)

(** The first loop: the key is the text before the separator without
    its whitespace, the index is the length of that text. *)
Lemma key_loop_outcome (line : string) (separator : ascii) :
  fits line ->
  forall rest fuel key p,
    drop p line = rest ->
    p + length rest = length line ->
    length rest < fuel ->
    key_loop fuel line separator key (N.of_nat p)
    = Done (key ++ strip (before separator rest),
            N.of_nat (p + length (before separator rest))).
Proof.
  intros Hfit.
  induction rest as [|c rest IH]; intros fuel key p Hdrop Hlen Hfuel;
    (destruct fuel as [|fuel]; [simpl in Hfuel; lia|]);
    cbn [key_loop before strip length] in *.
  - assert (Hp : p = length line) by lia. subst p.
    rewrite char_at_end, N.ltb_irrefl, andb_false_r.
    rewrite append_empty, Nat.add_0_r. reflexivity.
  - rewrite (char_at_inside p line c rest Hdrop).
    destruct (drop_next _ _ _ _ Hdrop) as [Hnext Hp].
    destruct (Ascii.eqb c separator) eqn:Hc; cbn [negb andb strip length].
    + rewrite append_empty, Nat.add_0_r. reflexivity.
    + assert (Hlt : (N.of_nat p <? N.of_nat (length line))%N = true)
        by (apply N.ltb_lt; lia).
      rewrite Hlt. rewrite (pre_incr_inside line p Hfit) by lia.
      rewrite (IH fuel _ (S p) Hnext) by lia.
      rewrite kept_in_key.
      replace (p + S (length (before separator rest)))
        with (S p + length (before separator rest)) by lia.
      destruct (isspace c); cbn [negb length].
      * reflexivity.
      * unfold push_back. rewrite append_assoc. reflexivity.
Qed.

(** The second loop from the separator at [p]: it stops at the first
    character behind the separator that is not blank, or at the end of
    the line. *)
Lemma leading_loop_outcome (line : string) :
  fits line ->
  forall rest fuel p,
    drop (S p) line = rest ->
    S p + length rest = length line ->
    length rest < fuel ->
    exists q,
      leading_loop fuel line (N.of_nat p) = Done (N.of_nat q) /\
      q <= length line /\
      drop q line = skip_blank rest.
Proof.
  intros Hfit.
  induction rest as [|c rest IH]; intros fuel p Hdrop Hlen Hfuel;
    (destruct fuel as [|fuel]; [simpl in Hfuel; lia|]);
    cbn [leading_loop skip_blank length] in *;
    rewrite (pre_incr_inside line p Hfit) by lia.
  - assert (Hp : S p = length line) by lia. rewrite Hp.
    rewrite char_at_end. fold (blank zero). rewrite zero_not_blank.
    exists (length line). split; [reflexivity|].
    split; [lia|apply drop_all].
  - rewrite (char_at_inside (S p) line c rest Hdrop).
    destruct (drop_next _ _ _ _ Hdrop) as [Hnext Hp].
    fold (blank c). destruct (blank c).
    + apply (IH fuel (S p) Hnext); lia.
    + exists (S p). split; [reflexivity|]. split; [lia|exact Hdrop].
Qed.

(** The second loop when the first one has run to the end of the line:
    its first access is behind the terminating null character. *)
Lemma leading_loop_outside (line : string) (fuel : nat) :
  fits line ->
  leading_loop (S fuel) line (N.of_nat (length line)) = OutOfBounds.
Proof.
  intros Hfit. cbn [leading_loop].
  rewrite (pre_incr_inside line (length line) Hfit) by lia.
  rewrite char_at_outside by lia. reflexivity.
Qed.

Lemma char_at_get (s : string) (p : nat) :
  p < length s -> char_at s (N.of_nat p) = String.get p s.
Proof.
  intros Hp. unfold char_at.
  assert (Hlt : (N.of_nat p < N.of_nat (length s))%N) by lia.
  rewrite (proj2 (N.compare_lt_iff _ _) Hlt), Nat2N.id. reflexivity.
Qed.

Lemma cut_blank_snoc (x : string) (c : ascii) :
  cut_blank (x ++ String c EmptyString)
  = if blank c then cut_blank x else x ++ String c EmptyString.
Proof.
  induction x as [|a x IH]; cbn [append cut_blank].
  - destruct (blank c); reflexivity.
  - rewrite IH. destruct (blank c); [reflexivity|].
    destruct x; reflexivity.
Qed.

(** What is left of a string after its blank end is cut is a prefix of
    the string. *)
Lemma cut_blank_prefix (v : string) :
  length (cut_blank v) <= length v /\
  substr v 0 (length (cut_blank v)) = cut_blank v.
Proof.
  unfold substr. induction v as [|c v [IHlen IHsub]]; cbn [cut_blank].
  - split; reflexivity.
  - destruct (cut_blank v) as [|a t] eqn:Hcut.
    + destruct (blank c); cbn [length substring]; split; try lia; auto.
      fold (substr v 0 0). rewrite substr_none. reflexivity.
    + cbn [length substring] in *. split; [lia|].
      rewrite IHsub. reflexivity.
Qed.

Lemma cut_blank_first (c : ascii) (r : string) :
  blank c = false -> exists t, cut_blank (String c r) = String c t.
Proof.
  intros Hc. cbn [cut_blank]. rewrite Hc.
  destruct (cut_blank r); eauto.
Qed.

Lemma skip_blank_first (s : string) (c : ascii) (r : string) :
  skip_blank s = String c r -> blank c = false.
Proof.
  induction s as [|a s IH]; cbn [skip_blank]; [discriminate|].
  destruct (blank a) eqn:Ha; auto.
  intros H. injection H as Hc Hr. congruence.
Qed.

(** The third loop from the index [j]: it stops at the last character
    before [j] that is not blank, and leaves the string when there is
    none. *)
Lemma trailing_loop_outcome (value : string) :
  fits value ->
  forall j fuel,
    j <= length value ->
    j < fuel ->
    trailing_loop fuel value (N.of_nat j)
    = match cut_blank (substr value 0 j) with
      | EmptyString => OutOfBounds
      | String _ t => Done (N.of_nat (length t))
      end.
Proof.
  intros Hfit.
  induction j as [|j IH]; intros fuel Hj Hfuel;
    (destruct fuel as [|fuel]; [lia|]); cbn [trailing_loop].
  - change (N.of_nat 0) with 0%N.
    rewrite (char_at_outside value _ (pre_decr_zero value Hfit)).
    rewrite substr_none. reflexivity.
  - rewrite (pre_decr_inside value j Hfit Hj).
    rewrite char_at_get by lia.
    destruct (substr_next value j) as (c & -> & ->); [lia|].
    rewrite cut_blank_snoc. fold (blank c). destruct (blank c).
    + apply IH; lia.
    + pose proof (substr_length value j) as Hlen.
      destruct (substr value 0 j ++ String c EmptyString) as [|a t] eqn:E.
      * destruct (substr value 0 j); discriminate.
      * apply (f_equal length) in E. rewrite append_length in E.
        cbn [length] in E. rewrite Hlen in E by lia.
        replace (length t) with j by lia. reflexivity.
Qed.

(** ** The line *)

Lemma strip_length (s : string) : length (strip s) <= length s.
Proof.
  induction s as [|c s IH]; cbn [strip length]; auto.
  destruct (isspace c); cbn [length]; lia.
Qed.

Lemma before_length (separator : ascii) (line : string) :
  length (before separator line) <= length line.
Proof.
  induction line as [|c s IH]; cbn [before length]; auto.
  destruct (Ascii.eqb c separator); cbn [length]; lia.
Qed.

Lemma before_all (separator : ascii) (line : string) :
  Tokenizer.occurs separator line = false ->
  before separator line = line.
Proof.
  induction line as [|c s IH]; cbn [before Tokenizer.occurs]; auto.
  destruct (Ascii.eqb c separator); cbn [orb]; [discriminate|].
  intros H. rewrite IH; auto.
Qed.

Lemma before_after (separator : ascii) (line : string) :
  Tokenizer.occurs separator line = true ->
  drop (length (before separator line)) line
  = String separator (after separator line).
Proof.
  induction line as [|c s IH]; cbn [before after Tokenizer.occurs];
    [discriminate|].
  destruct (Ascii.eqb_spec c separator) as [->|Hc]; cbn [orb length drop].
  - reflexivity.
  - exact IH.
Qed.

(** The body of the loop, with its three index loops, computes
    [line_outcome]: it never runs out of its bounds on the number of
    passes and never throws. *)
Theorem parse_line_outcome (line : string) (separator : ascii) :
  fits line -> parse_line line separator = line_outcome line separator.
Proof.
  intros Hfit. unfold parse_line, line_outcome.
  pose proof (key_loop_outcome line separator Hfit line (length line + 2)
                               EmptyString 0 eq_refl) as Hkey.
  cbn [append Nat.add] in Hkey. change (N.of_nat 0) with 0%N in Hkey.
  rewrite Hkey by lia. clear Hkey.
  destruct (not_a_property (strip (before separator line)) line);
    [reflexivity|].
  destruct (Tokenizer.occurs separator line) eqn:Hocc; cbn [negb].
  - pose proof (before_after separator line Hocc) as Hdrop.
    destruct (drop_next _ _ _ _ Hdrop) as [Hnext Hp].
    pose proof (TokenizerFacts.drop_length
                  (S (length (before separator line))) line) as Hlen.
    rewrite Hnext in Hlen.
    destruct (leading_loop_outcome line Hfit (after separator line)
                (length line + 2) (length (before separator line)) Hnext)
      as (q & -> & Hq & Hvalue); [lia|lia|].
    unfold substr_from.
    assert (Hle : (N.of_nat q <=? N.of_nat (length line))%N = true)
      by (apply N.leb_le; lia).
    rewrite Hle, Nat2N.id, Hvalue.
    pose proof (TokenizerFacts.drop_length q line) as Hvlen.
    rewrite Hvalue in Hvlen.
    set (value := skip_blank (after separator line)) in *.
    assert (Hfitv : fits value) by (unfold fits in *; lia).
    rewrite (trailing_loop_outcome value Hfitv (length value)) by lia.
    rewrite TokenizerFacts.substr_all.
    destruct value as [|c r] eqn:Hv; [reflexivity|].
    pose proof (skip_blank_first _ _ _ Hv) as Hc.
    destruct (cut_blank_first c r Hc) as (t & Ht).
    destruct (cut_blank_prefix (String c r)) as [Htlen Htsub].
    rewrite Ht in *. cbn [length] in Htlen.
    rewrite (pre_incr_inside (String c r) (length t) Hfitv)
      by (cbn [length]; lia).
    unfold erase.
    assert (Hle' : (N.of_nat (S (length t))
                    <=? N.of_nat (length (String c r)))%N = true)
      by (apply N.leb_le; cbn [length]; lia).
    rewrite Hle', Nat2N.id.
    cbn [length] in Htsub. rewrite Htsub. reflexivity.
  - rewrite (before_all separator line Hocc).
    replace (length line + 2) with (S (length line + 1)) by lia.
    rewrite (leading_loop_outside line _ Hfit). reflexivity.
Qed.

(** ** Consequences *)

(** The constructor's loop body gives a pair, discards the line, or
    reads outside a string; nothing else. *)
Lemma parse_line_cases (line : string) (separator : ascii) :
  fits line ->
  parse_line line separator = Done None \/
  parse_line line separator = OutOfBounds \/
  exists key value,
    parse_line line separator = Done (Some (key, value)) /\
    key <> EmptyString /\ value <> EmptyString.
Proof.
  intros Hfit. rewrite (parse_line_outcome line separator Hfit).
  unfold line_outcome.
  destruct (not_a_property (strip (before separator line)) line) eqn:Hnot;
    [auto|].
  destruct (Tokenizer.occurs separator line); cbn [negb]; [|auto].
  destruct (skip_blank (after separator line)) as [|c r] eqn:Hv; [auto|].
  right. right. do 2 eexists. split; [reflexivity|].
  split.
  - intros Hkey. unfold not_a_property in Hnot. rewrite Hkey in Hnot.
    discriminate.
  - destruct (cut_blank_first c r (skip_blank_first _ _ _ Hv)) as (t & ->).
    discriminate.
Qed.

(** A pair the loop body gives has no empty key and no empty value. *)
Lemma parse_line_no_empty (line : string) (separator : ascii)
      (key value : string) :
  fits line ->
  parse_line line separator = Done (Some (key, value)) ->
  key <> EmptyString /\ value <> EmptyString.
Proof.
  intros Hfit Hparse.
  destruct (parse_line_cases line separator Hfit)
    as [H|[H|(k & v & H & Hk & Hv)]]; rewrite H in Hparse;
    try discriminate.
  injection Hparse as <- <-. auto.
Qed.

(** On a line inside ASCII the blank characters are the whitespace. *)
Lemma skip_blank_trim_left (s : string) :
  ascii_only s = true ->
  skip_blank s = trim_left s /\ ascii_only (trim_left s) = true.
Proof.
  induction s as [|c s IH]; cbn [ascii_only skip_blank trim_left]; auto.
  intros H. apply andb_true_iff in H as [Hc Hs].
  unfold blank. apply negb_true_iff in Hc. rewrite Hc. cbn [orb].
  destruct (isspace c); [auto|].
  split; [reflexivity|]. cbn [ascii_only]. rewrite Hc, Hs. reflexivity.
Qed.

Lemma cut_blank_trim_right (s : string) :
  ascii_only s = true -> cut_blank s = trim_right s.
Proof.
  induction s as [|c s IH]; cbn [ascii_only cut_blank trim_right]; auto.
  intros H. apply andb_true_iff in H as [Hc Hs].
  rewrite IH by exact Hs.
  unfold blank. apply negb_true_iff in Hc. rewrite Hc. reflexivity.
Qed.

Lemma after_ascii (separator : ascii) (line : string) :
  ascii_only line = true -> ascii_only (after separator line) = true.
Proof.
  induction line as [|c s IH]; cbn [ascii_only after]; auto.
  intros H. apply andb_true_iff in H as [Hc Hs].
  destruct (Ascii.eqb c separator); auto.
Qed.

(** With the separator in the line the key is shorter than the line. *)
Lemma key_shorter (separator : ascii) (line : string) :
  Tokenizer.occurs separator line = true ->
  length (strip (before separator line)) < length line.
Proof.
  intros Hocc.
  destruct (drop_next _ _ _ _ (before_after separator line Hocc)) as [_ H].
  pose proof (strip_length (before separator line)). lia.
Qed.

(** X20.  Where the rule of the specification gives a pair with a value
    that is not empty, on a line inside ASCII, the loop body gives that
    pair: the key is the text before the separator without its
    whitespace, the value the text behind it without the whitespace at
    its two ends. *)
Theorem rule_gives_pair (line : string) (separator : ascii)
        (key value : string) :
  fits line ->
  ascii_only line = true ->
  line_rule line separator = Some (key, value) ->
  value <> EmptyString ->
  parse_line line separator = Done (Some (key, value)).
Proof.
  intros Hfit Hascii Hrule Hvalue.
  rewrite (parse_line_outcome line separator Hfit).
  unfold line_rule in Hrule. unfold line_outcome, not_a_property.
  destruct (Nat.eqb (length (strip (before separator line))) 0
            || starts_with (strip (before separator line)) "#"
            || starts_with (strip (before separator line)) "!") eqn:Hkey;
    cbn [orb] in Hrule; [discriminate|].
  destruct (Tokenizer.occurs separator line) eqn:Hocc;
    cbn [negb] in Hrule; [|discriminate].
  injection Hrule as <- <-.
  pose proof (key_shorter separator line Hocc) as Hshort.
  apply Nat.lt_neq in Hshort. apply Nat.eqb_neq in Hshort.
  rewrite Hshort. cbn [orb negb].
  destruct (skip_blank_trim_left (after separator line)
              (after_ascii separator line Hascii)) as [Hskip Hleft].
  rewrite Hskip. unfold trim in *.
  destruct (trim_left (after separator line)) as [|c r] eqn:Hv.
  - exfalso. apply Hvalue. reflexivity.
  - rewrite (cut_blank_trim_right _ Hleft). reflexivity.
Qed.

(** X21.  A line the loop body discards is one the rule discards: its key
    is empty or starts with '#' or '!', or it has no separator. *)
Theorem discarded_by_rule (line : string) (separator : ascii) :
  fits line ->
  parse_line line separator = Done None ->
  line_rule line separator = None.
Proof.
  intros Hfit. rewrite (parse_line_outcome line separator Hfit).
  unfold line_outcome, line_rule, not_a_property.
  destruct (Nat.eqb (length (strip (before separator line))) 0
            || starts_with (strip (before separator line)) "#"
            || starts_with (strip (before separator line)) "!") eqn:Hkey;
    cbn [orb]; [reflexivity|].
  destruct (Tokenizer.occurs separator line) eqn:Hocc; cbn [negb].
  - pose proof (key_shorter separator line Hocc) as Hshort.
    apply Nat.lt_neq in Hshort. apply Nat.eqb_neq in Hshort.
    rewrite Hshort.
    destruct (skip_blank (after separator line)); discriminate.
  - reflexivity.
Qed.

(** The lines the loop body neither discards nor turns into a pair:
    those it takes for a property although the separator is missing,
    and those with nothing but blank characters behind the separator.
    There it reads outside a string. *)
Theorem out_of_bounds_lines (line : string) (separator : ascii) :
  fits line ->
  (parse_line line separator = OutOfBounds <->
   not_a_property (strip (before separator line)) line = false /\
   (Tokenizer.occurs separator line = false \/
    skip_blank (after separator line) = EmptyString)).
Proof.
  intros Hfit. rewrite (parse_line_outcome line separator Hfit).
  unfold line_outcome.
  destruct (not_a_property (strip (before separator line)) line).
  - split; [discriminate|intros [H _]; discriminate].
  - destruct (Tokenizer.occurs separator line); cbn [negb].
    + destruct (skip_blank (after separator line)).
      * split; auto.
      * split; [discriminate|].
        intros [_ [H|H]]; discriminate.
    + split; auto.
Qed.

End ParseLineFacts.

(* ================================================================== *)
(** * The properties store of a whole file *)

Module StoreFacts.
Import Str Exn Properties MultimapFacts ParseLineFacts.

(** No line of a file is longer than the file. *)
Lemma getlines_length (content : string) :
  Forall (fun line => length line <= length content) (getlines content).
Proof.
  induction content as [|a r IH]; cbn [getlines length].
  - constructor; auto.
  - destruct (Ascii.eqb a newline).
    + constructor; [cbn [length]; lia|].
      eapply Forall_impl; [|exact IH]. cbn beta. intros l Hl. lia.
    + destruct (getlines r) as [|l ls].
      * constructor; [cbn [length]; lia|constructor].
      * inversion IH as [|? ? Hl Hls]; subst. constructor.
        -- cbn [length]. lia.
        -- eapply Forall_impl; [|exact Hls]. cbn beta. intros x Hx. lia.
Qed.

Lemma getlines_fit (content : string) :
  fits content -> Forall fits (getlines content).
Proof.
  intros Hfit. eapply Forall_impl; [|apply getlines_length].
  cbn beta. unfold fits in *. intros l Hl. lia.
Qed.

Lemma insert_no_empty (kv : string * string) (m : multimap) :
  fst kv <> EmptyString -> snd kv <> EmptyString ->
  no_empty m -> no_empty (insert kv m).
Proof.
  unfold no_empty. intros Hk Hv Hm. apply Forall_forall.
  intros x Hx. apply insert_In in Hx as [->|Hx]; auto.
  rewrite Forall_forall in Hm. auto.
Qed.

(** The loop of the constructor returns or reads outside a string; it
    is never cut off by the bounds of the embedding and never throws. *)
Lemma read_cases (separator : ascii) (lines : list string) :
  Forall fits lines ->
  forall m,
    (exists m', read separator lines m = Done m') \/
    read separator lines m = OutOfBounds.
Proof.
  induction 1 as [|line lines Hfit Hfits IH]; intros m; cbn [read].
  - eauto.
  - destruct (parse_line_cases line separator Hfit)
      as [->|[->|(k & v & -> & _)]]; auto.
Qed.

(** When the loop returns, no key and no value of the store is empty. *)
Lemma read_no_empty (separator : ascii) (lines : list string) :
  Forall fits lines ->
  forall m m',
    no_empty m ->
    read separator lines m = Done m' ->
    no_empty m'.
Proof.
  induction 1 as [|line lines Hfit Hfits IH]; intros m m' Hm; cbn [read].
  - intros H. injection H as <-. exact Hm.
  - destruct (parse_line line separator) as [[[k v]|]|e| |] eqn:Hparse;
      try discriminate.
    + destruct (parse_line_no_empty line separator k v Hfit Hparse)
        as [Hk Hv].
      apply IH. apply insert_no_empty; auto.
    + apply IH. exact Hm.
Qed.

(** A run of the constructor that ends without a read outside a string
    gives a store without an empty key and without an empty value. *)
Theorem store_no_empty
        (fileName content : string) (separator : ascii) (m : multimap) :
  fits content ->
  PropertiesFileReader fileName (Some content) separator = Done m ->
  no_empty m.
Proof.
  intros Hfit. cbn [PropertiesFileReader].
  apply (read_no_empty separator (getlines content)
                       (getlines_fit content Hfit) []).
  constructor.
Qed.

(** The constructor on a file that can be opened returns or reads
    outside a string. *)
Theorem constructor_cases
        (fileName content : string) (separator : ascii) :
  fits content ->
  (exists m,
      PropertiesFileReader fileName (Some content) separator = Done m) \/
  PropertiesFileReader fileName (Some content) separator = OutOfBounds.
Proof.
  intros Hfit. cbn [PropertiesFileReader].
  apply read_cases. apply getlines_fit. exact Hfit.
Qed.

End StoreFacts.

(* ================================================================== *)
(** * Facts about the conversions *)

Module LibcFacts.
Import Str Decoder Properties Shape Libc.
Local Open Scope Z_scope.

(** ** Conversion to an integer type *)





(** ** Digits *)





(** ** Whitespace and sign *)



(** ** [strtol] *)



(** ** [strtod] *)



End LibcFacts.

(* ================================================================== *)
(** * The properties store: what construction gives *)

Module PropertiesSpec.
Import Str Exn Properties StringOrder MultimapFacts.

(** C7.  A line without the separator is not always discarded.  The
    test for it compares the length of the key with the length of the
    line, and the key has lost the whitespace of the line: for the line
    "a b" the key is "ab", the test fails, the line is taken for a
    property, and the scan for the value reads the line behind its
    end.  The rule of the specification discards the line.  The line
    "key = value  " gives the pair of "key" and "value". *)
Theorem line_without_separator_is_parsed :
  line_rule "a b" "=" = None /\
  key_loop 5 "a b" "=" "" 0 = Done ("ab", 3%N) /\
  not_a_property "ab" "a b" = false /\
  char_at "a b" (pre_incr 3) = None /\
  parse_line "a b" "=" = OutOfBounds /\
  PropertiesFileReader "test.prop" (Some (text ["k=v"; "a b"; ""])) "="
  = OutOfBounds /\
  parse_line "key = value  " "=" = Done (Some ("key", "value")) /\
  PropertiesFileReader "test.prop" (Some (text ["key = value  "; ""])) "="
  = Done [("key", "value")].
Proof.
  repeat split; vm_compute; reflexivity.
Qed.

(** C8, as stated, fails: in the file with the lines "b=1" and "a=2"
    the key "b" is inserted first, and [keys()] gives "a" before "b". *)
Lemma keys_not_in_insertion_order :
  let content := text ["b=1"; "a=2"] in
  PropertiesFileReader "test.prop" (Some content) "="
  = Done [("a", "2"); ("b", "1")] /\
  keys [("a", "2"); ("b", "1")] = ["a"; "b"] /\
  first_insertion_order [] (parsed "=" (getlines content)) = ["b"; "a"] /\
  keys [("a", "2"); ("b", "1")]
  <> first_insertion_order [] (parsed "=" (getlines content)).
Proof.
  repeat split; try (vm_compute; reflexivity).
  vm_compute. discriminate.
Qed.

(** C8, amended.  [keys()] of the store a file gives lists every key of
    the file's pairs exactly once, in the increasing order of the keys
    (the order of the store, that of [std::string]'s [<]); [values(k)]
    gives the values of the pairs with the key [k] in the order of the
    file. *)
Theorem keys_in_key_order
        (fileName content : string) (separator : ascii) (m : multimap) :
  PropertiesFileReader fileName (Some content) separator = Done m ->
  StronglySorted (fun a b => String.ltb a b = true) (keys m) /\
  NoDup (keys m) /\
  (forall k, In k (keys m)
             <-> In k (map fst (parsed separator (getlines content)))) /\
  (forall k, values m k
             = values_of k (parsed separator (getlines content))).
Proof.
  simpl. intros Hread. apply read_insert_all in Hread.
  assert (Hm : ordered m).
  { subst m. apply insert_all_ordered. apply nil_ordered. }
  assert (Hsorted : StronglySorted (fun a b => String.ltb a b = true)
                                   (keys m)).
  { rewrite keys_distinct. apply distinct_increasing; auto.
    intros k [=]. }
  split; [exact Hsorted|].
  split; [apply increasing_NoDup; exact Hsorted|].
  split.
  - intros k. rewrite keys_distinct.
    rewrite (distinct_In m Hm None k) by (intros k' [=]).
    rewrite !in_map_iff. subst m. split.
    + intros [(x & Hx & Hin) _]. exists x. split; auto.
      apply insert_all_In in Hin as [[]|Hin]. exact Hin.
    + intros (x & Hx & Hin). split; [|discriminate].
      exists x. split; auto. apply insert_all_In. auto.
  - intros k. rewrite values_filter by exact Hm.
    unfold values_of. subst m.
    rewrite insert_all_filter by apply nil_ordered. reflexivity.
Qed.

Lemma keys_in_key_order_witness :
  let content := text ["b=1"; "a=2"; "#c"; "b=0"; ""] in
  let m := [("a", "2"); ("b", "1"); ("b", "0")] in
  StronglySorted (fun a b => String.ltb a b = true) (keys m) /\
  NoDup (keys m) /\
  (forall k, In k (keys m)
             <-> In k (map fst (parsed "=" (getlines content)))) /\
  (forall k, values m k = values_of k (parsed "=" (getlines content))).
Proof.
  apply (keys_in_key_order "test.prop"
           (text ["b=1"; "a=2"; "#c"; "b=0"; ""]) "="
           [("a", "2"); ("b", "1"); ("b", "0")]).
  vm_compute. reflexivity.
Defined.

(** C9.  A line that has nothing, or whitespace only, behind the
    separator: the value is empty before its trailing whitespace is
    cut, the index of that loop starts at 0, [--i] makes it the largest
    [size_t], and [value[i]] is read outside the string.  The
    constructor has no defined result on the file, and no test keeps an
    empty value out of the store. *)
Theorem empty_value_is_read_out_of_bounds :
  key_loop 6 "key=" "=" "" 0 = Done ("key", 3%N) /\
  not_a_property "key" "key=" = false /\
  leading_loop 6 "key=" 3 = Done 4%N /\
  substr_from "key=" 4 = Some "" /\
  pre_decr 0 = 18446744073709551615%N /\
  char_at "" (pre_decr 0) = None /\
  parse_line "key=" "=" = OutOfBounds /\
  parse_line "key=   " "=" = OutOfBounds /\
  PropertiesFileReader "test.prop" (Some (text ["a=1"; "key="; ""])) "="
  = OutOfBounds.
Proof.
  repeat split; vm_compute; reflexivity.
Qed.

End PropertiesSpec.
(* ================================================================== *)
(** * The claim about the numeric decode *)

Module DecodeSpec.
Import Str Exn Decoder CSV Properties Shape Libc LibcFacts.
Local Open Scope Z_scope.





End DecodeSpec.

(* ================================================================== *)
(** * More on the tokenizer *)

Module TokenizerMore.
Import Str Tokenizer TokenizerFacts.
Local Open Scope string_scope.

Lemma split_on_append (c : ascii) (s u : string) :
  split_on c (s ++ String c u) = (split_on c s ++ split_on c u)%list.
Proof.
  induction s as [|a r IH]; cbn [append split_on].
  - rewrite Ascii.eqb_refl. reflexivity.
  - destruct (Ascii.eqb a c).
    + rewrite IH. reflexivity.
    + rewrite IH. pose proof (split_on_nonempty c r) as Hne.
      destruct (split_on c r) as [|t ts]; [congruence|]. reflexivity.
Qed.

Lemma split_on_one (c : ascii) (s : string) :
  occurs c s = false -> split_on c s = [s].
Proof.
  induction s as [|a r IH]; cbn [occurs split_on]; auto.
  destruct (Ascii.eqb a c); cbn [orb]; [discriminate|].
  intros H. rewrite (IH H). reflexivity.
Qed.

(** X1.  Tokens joined with the separator and tokenized again are the
    same tokens, when there is at least one token and no token holds the
    separator. *)
Theorem tokenize_join (c : ascii) (tokens : list string) :
  tokens <> [] ->
  Forall (fun t => occurs c t = false) tokens ->
  tokenize (join c tokens) c = tokens.
Proof.
  intros Hne Hall. rewrite tokenize_split.
  induction tokens as [|t ts IH]; [congruence|].
  inversion Hall as [|? ? Ht Hts]; subst.
  destruct ts as [|t' ts].
  - cbn [join]. apply split_on_one. exact Ht.
  - change (join c (t :: t' :: ts)) with (t ++ String c (join c (t' :: ts))).
    rewrite split_on_append, (split_on_one c t Ht).
    rewrite IH by (auto; discriminate). reflexivity.
Qed.

Lemma tokenize_join_witness :
  tokenize (join ";" ["a"; ""; "b c"; ""]) ";" = ["a"; ""; "b c"; ""].
Proof.
  apply (tokenize_join ";" ["a"; ""; "b c"; ""]).
  - discriminate.
  - repeat constructor.
Defined.

(** X2.  The tokens of two strings with a separator between them are the
    tokens of the first followed by the tokens of the second. *)
Theorem tokenize_append (c : ascii) (s u : string) :
  tokenize (s ++ String c u) c = (tokenize s c ++ tokenize u c)%list.
Proof.
  rewrite !tokenize_split. apply split_on_append.
Qed.

End TokenizerMore.

(* ================================================================== *)
(** * More on the CSV stores *)

Module CSVMore.
Import Str Exn Decoder CSV Rows CSVFacts CSVSpec.

Lemma skipn_nth {A : Type} (l : list A) (n : nat) (x : A) :
  nth_error l n = Some x -> skipn n l = x :: skipn (S n) l.
Proof.
  revert l; induction n as [|n IH]; intros [|a l]; cbn [nth_error];
    try discriminate.
  - intros H. injection H as ->. reflexivity.
  - intros H. rewrite (skipn_cons n a l). rewrite (IH l H). reflexivity.
Qed.

Lemma violation_free_lines (separator : ascii) (expected : nat)
      (lines : list string) :
  forallb (fun l => negb (violates separator expected l)) lines = true ->
  forall line, In line (filter is_data lines) ->
               token_count separator line = expected.
Proof.
  intros Hall line Hin. apply filter_In in Hin as [Hin Hdata].
  rewrite forallb_forall in Hall. specialize (Hall line Hin).
  unfold violates in Hall. rewrite Hdata in Hall. cbn [andb] in Hall.
  rewrite negb_involutive in Hall. apply Nat.eqb_eq. exact Hall.
Qed.

(** Two files with the same data lines are read alike. *)
Lemma homo_read_data (separator : ascii) :
  forall lines numValues _records,
    Homo.read separator lines numValues _records
    = Homo.read separator (filter is_data lines) numValues _records.
Proof.
  induction lines as [|line lines IH]; intros numValues _records;
    cbn [filter Homo.read]; auto.
  unfold is_data at 1. destruct (skipped line) eqn:Hskip; cbn [negb].
  - apply IH.
  - cbn [Homo.read]. rewrite Hskip.
    destruct (negb _); [reflexivity|]. apply IH.
Qed.

Section HeteroMore.

Variable atof : string -> spec_float.
Variable atol : string -> Z.
Variable atoi : string -> Z.

Abbreviation tuple_of TYPES separator :=
  (fun line : string =>
     decoded_row atof atol atoi TYPES (Tokenizer.tokenize line separator)).

(** Inside [strValues], [_copyToTuple] gives the tokens from [POS] on,
    each converted to its type. *)
Lemma copy_decoded (TYPES : list VAL_TYPE) :
  forall POS strValues,
    POS + List.length TYPES <= List.length strValues ->
    Hetero._copyToTuple atof atol atoi TYPES POS strValues
    = Some (decoded_row atof atol atoi TYPES (skipn POS strValues)).
Proof.
  unfold decoded_row.
  induction TYPES as [|T TYPES IH]; intros POS strValues Hlen;
    cbn [Hetero._copyToTuple List.length] in *.
  - reflexivity.
  - destruct (nth_error strValues POS) as [token|] eqn:Hnth.
    + rewrite IH by lia. rewrite (skipn_nth _ _ _ Hnth). reflexivity.
    + apply nth_error_None in Hnth. lia.
Qed.

Lemma decoded_row_length (TYPES : list VAL_TYPE) (tokens : list string) :
  List.length tokens = List.length TYPES ->
  List.length (decoded_row atof atol atoi TYPES tokens)
  = List.length TYPES.
Proof.
  intros H. unfold decoded_row.
  rewrite length_map, length_combine. lia.
Qed.

(** The conversion of [decode] written out by type. *)
Lemma decoded_row_converted (TYPES : list VAL_TYPE) (tokens : list string) :
  decoded_row atof atol atoi TYPES tokens
  = map (fun column =>
           match fst column with
           | std_string => Text (snd column)
           | bool_t => Boolean (negb (atoi (snd column) =? 0)%Z)
           | integer ty =>
               Integer (to_integer ty
                          (if (4 <? sizeof ty)%Z then atol (snd column)
                           else atoi (snd column)))
           | floating K => Floating (to_floating K (atof (snd column)))
           end)
        (combine TYPES tokens).
Proof.
  unfold decoded_row. apply map_ext. intros [T token]. cbn [fst snd].
  destruct T as [| |ty|K]; cbn [decode]; try reflexivity.
  change sizeof_int with 4%Z. destruct (4 <? sizeof ty)%Z; reflexivity.
Qed.

Lemma hetero_read_rows (TYPES : list VAL_TYPE) (separator : ascii) :
  forall lines _records,
    forallb (fun l => negb (violates separator (List.length TYPES) l)) lines
    = true ->
    Hetero.read atof atol atoi TYPES separator lines _records
    = (_records ++ map (tuple_of TYPES separator) (filter is_data lines),
       Returned).
Proof.
  induction lines as [|line lines IH]; intros _records Hall;
    cbn [Hetero.read filter map forallb] in *.
  - rewrite app_nil_r. reflexivity.
  - apply andb_true_iff in Hall as [Hline Hall].
    unfold is_data at 1. destruct (skipped line) eqn:Hskip; cbn [negb].
    + apply IH. exact Hall.
    + pose proof (violates_false _ _ _ Hline Hskip) as Hn. rewrite Hn.
      cbn [negb]. apply Nat.eqb_eq in Hn.
      rewrite copy_decoded by lia. cbn [skipn].
      rewrite IH by exact Hall. cbn [map]. rewrite <- app_assoc.
      reflexivity.
Qed.

Lemma hetero_read_data (TYPES : list VAL_TYPE) (separator : ascii) :
  forall lines _records,
    Hetero.read atof atol atoi TYPES separator lines _records
    = Hetero.read atof atol atoi TYPES separator (filter is_data lines)
                  _records.
Proof.
  induction lines as [|line lines IH]; intros _records;
    cbn [filter Hetero.read]; auto.
  unfold is_data at 1. destruct (skipped line) eqn:Hskip; cbn [negb].
  - apply IH.
  - cbn [Hetero.read]. rewrite Hskip.
    destruct (negb _); [reflexivity|].
    destruct (Hetero._copyToTuple _ _ _ _ _ _); [apply IH|reflexivity].
Qed.

(** What the constructor gives on a file that can be opened. *)
Lemma hetero_outcome (TYPES : list VAL_TYPE) (fileName content : string)
      (separator : ascii) :
  (Hetero.CSVFileReader atof atol atoi TYPES fileName (Some content)
                        separator
   = (map (tuple_of TYPES separator) (data_lines content), Returned) /\
   forall line, In line (data_lines content) ->
                token_count separator line = List.length TYPES) \/
  (exists l v,
      Hetero.CSVFileReader atof atol atoi TYPES fileName (Some content)
                           separator
      = ([], Thrown (inconsistent l v (List.length TYPES)))).
Proof.
  cbn [Hetero.CSVFileReader].
  destruct (existsb (violates separator (List.length TYPES))
                    (getlines content)) eqn:Hex.
  - right. apply first_such in Hex as (pre & x & post & -> & Hx & Hpre).
    rewrite (read_violation atof atol atoi TYPES separator
                            pre x post [] Hpre Hx).
    eauto.
  - left. apply no_such in Hex. split.
    + rewrite (hetero_read_rows TYPES separator _ [] Hex). reflexivity.
    + apply violation_free_lines. exact Hex.
Qed.

End HeteroMore.

Lemma homo_outcome (fileName content : string) (separator : ascii)
      (numValues : nat) :
  (Homo.CSVFileReader fileName (Some content) separator numValues
   = (map (fun line => Tokenizer.tokenize line separator)
          (data_lines content), Returned) /\
   forall line, In line (data_lines content) ->
                token_count separator line
                = established separator content numValues) \/
  (exists l v,
      Homo.CSVFileReader fileName (Some content) separator numValues
      = ([], Thrown (inconsistent l v
                       (established separator content numValues)))).
Proof.
  cbn [Homo.CSVFileReader].
  assert (Hgiven : forall n, n <> 0 ->
            (Homo.read separator (getlines content) n []
             = (map (fun line => Tokenizer.tokenize line separator)
                    (data_lines content), Returned) /\
             forall line, In line (data_lines content) ->
                          token_count separator line = n) \/
            (exists l v,
                Homo.read separator (getlines content) n []
                = ([], Thrown (inconsistent l v n)))).
  { intros n Hn.
    destruct (homo_read_cases separator n (getlines content) Hn)
      as [Hthrow|[Hall Hok]]; [right; exact Hthrow|left].
    split; [exact Hok|]. apply violation_free_lines. exact Hall. }
  unfold established. destruct numValues as [|m]; cbn [Nat.eqb].
  - rewrite homo_read_inferred. unfold data_lines in *.
    destruct (filter is_data (getlines content)) as [|first rest] eqn:Hd.
    + left. split; [reflexivity|]. intros line [].
    + apply Hgiven. pose proof (token_count_pos separator first). lia.
  - apply Hgiven. discriminate.
Qed.

(** X3.  The constructor of the store with declared column types, on
    every file that can be opened, either returns with one tuple for
    each data line, in the order of the file (and then every data line
    has as many tokens as there are types), or throws the [range_error]
    with no record left; it never reads outside the vector of tokens.
    The component of a tuple for a column is the token of the column
    converted to the declared type: the token itself for
    [std::string]; whether [atoi] of the token is not 0 for [bool]; for
    an integer type the value of the type congruent to [atol] of the
    token (a type larger than [int]) or to [atoi] of it; for a
    floating-point type [atof] of the token, rounded for [float]. *)
Theorem hetero_constructor_cases
        (atof : string -> spec_float) (atol atoi : string -> Z)
        (TYPES : list VAL_TYPE) (fileName content : string)
        (separator : ascii) :
  let converted (T : VAL_TYPE) (token : string) : field :=
    match T with
    | std_string => Text token
    | bool_t => Boolean (negb (atoi token =? 0)%Z)
    | integer ty =>
        Integer (to_integer ty (if (4 <? sizeof ty)%Z then atol token
                                else atoi token))
    | floating K => Floating (to_floating K (atof token))
    end in
  (Hetero.CSVFileReader atof atol atoi TYPES fileName (Some content)
                        separator
   = (map (fun line =>
             map (fun column => converted (fst column) (snd column))
                 (combine TYPES (Tokenizer.tokenize line separator)))
          (data_lines content), Returned) /\
   forall line, In line (data_lines content) ->
                token_count separator line = List.length TYPES) \/
  (exists l v,
      Hetero.CSVFileReader atof atol atoi TYPES fileName (Some content)
                           separator
      = ([], Thrown (inconsistent l v (List.length TYPES)))).
Proof.
  intros converted.
  destruct (hetero_outcome atof atol atoi TYPES fileName content separator)
    as [[Hok Hall]|Hthrow]; [left|right; exact Hthrow].
  split; [|exact Hall]. rewrite Hok. f_equal.
  apply map_ext. intros line. apply decoded_row_converted.
Qed.

Lemma hetero_constructor_cases_witness :
  let TYPES := [integer char_t; floating double_t; bool_t] in
  let content := text ["200;12x;abc"; "#c"; "-1;.5;2"; ""] in
  (Hetero.CSVFileReader Libc.atof Libc.atol Libc.atoi TYPES "test.csv"
                        (Some content) ";"
   = ([[Integer (-56); Floating Libc.twelve; Boolean false];
       [Integer (-1); Floating (S754_finite false 4503599627370496 (-53));
        Boolean true]], Returned) /\
   forall line, In line (data_lines content) ->
                token_count ";" line = List.length TYPES) \/
  (exists l v,
      Hetero.CSVFileReader Libc.atof Libc.atol Libc.atoi TYPES "test.csv"
                           (Some content) ";"
      = ([], Thrown (inconsistent l v (List.length TYPES)))).
Proof.
  exact (hetero_constructor_cases Libc.atof Libc.atol Libc.atoi
           [integer char_t; floating double_t; bool_t] "test.csv"
           (text ["200;12x;abc"; "#c"; "-1;.5;2"; ""]) ";").
Defined.

(** X4.  Row access in a store with declared column types that was
    built: [operator[]] with the number of a row gives the tuple of the
    data line with that number (counting data lines from 0), which has
    [cols()] components, each the token of its column converted to the
    declared type (as the constructor stores it), and is an access
    outside the vector exactly for the numbers from [size()] on. *)
Theorem hetero_row_access
        (atof : string -> spec_float) (atol atoi : string -> Z)
        (TYPES : list VAL_TYPE) (fileName content : string)
        (separator : ascii) (_records : list (Hetero.record)) :
  let converted (T : VAL_TYPE) (token : string) : field :=
    match T with
    | std_string => Text token
    | bool_t => Boolean (negb (atoi token =? 0)%Z)
    | integer ty =>
        Integer (to_integer ty (if (4 <? sizeof ty)%Z then atol token
                                else atoi token))
    | floating K => Floating (to_floating K (atof token))
    end in
  Hetero.CSVFileReader atof atol atoi TYPES fileName (Some content)
                       separator
  = (_records, Returned) ->
  forall row,
    operator_index _records row
    = option_map (fun line =>
                    map (fun column => converted (fst column) (snd column))
                        (combine TYPES (Tokenizer.tokenize line separator)))
                 (nth_error (data_lines content) row) /\
    (operator_index _records row = None <-> Hetero.size _records <= row) /\
    (forall tuple, operator_index _records row = Some tuple ->
                   List.length tuple = Hetero.cols TYPES).
Proof.
  intros converted Hctor row.
  destruct (hetero_outcome atof atol atoi TYPES fileName content separator)
    as [[Hok Hall]|(l & v & Hthrow)];
    [|rewrite Hthrow in Hctor; discriminate].
  rewrite Hok in Hctor. injection Hctor as <-.
  unfold operator_index, Hetero.size, Hetero.cols.
  split; [|split; [apply nth_error_None|]].
  - rewrite nth_error_map.
    destruct (nth_error (data_lines content) row); cbn [option_map];
      [|reflexivity].
    f_equal. apply decoded_row_converted.
  - intros tuple Hrow. rewrite nth_error_map in Hrow.
    destruct (nth_error (data_lines content) row) as [line|] eqn:Hline;
      [|discriminate].
    injection Hrow as <-. apply decoded_row_length.
    apply Hall. eapply nth_error_In. exact Hline.
Qed.

Lemma hetero_row_access_witness :
  let TYPES := [integer short_t; std_string; bool_t; floating float_t;
                integer unsigned_long_t] in
  let content := text ["1;a;0;12x;7"; "#c"; "70000;b;2;0.1;-1"; ""] in
  let _records : list Hetero.record :=
    [[Integer 1; Text "a"; Boolean false;
      Floating (S754_finite false 12582912 (-20)); Integer 7];
     [Integer 4464; Text "b"; Boolean true;
      Floating (S754_finite false 13421773 (-27));
      Integer 18446744073709551615]] in
  operator_index _records 1
  = Some [Integer 4464; Text "b"; Boolean true;
          Floating (S754_finite false 13421773 (-27));
          Integer 18446744073709551615] /\
  (operator_index _records 1 = None <-> Hetero.size _records <= 1) /\
  (forall tuple,
      operator_index _records 1 = Some tuple ->
      List.length tuple = Hetero.cols TYPES).
Proof.
  apply (hetero_row_access Libc.atof Libc.atol Libc.atoi
           [integer short_t; std_string; bool_t; floating float_t;
            integer unsigned_long_t]
           "test.csv"
           (text ["1;a;0;12x;7"; "#c"; "70000;b;2;0.1;-1"; ""]) ";").
  vm_compute. reflexivity.
Defined.

(** X5.  The constructor of the store of one type, on every file that
    can be opened, either returns with the tokens of each data line as
    one record, in the order of the file (and then every data line has
    the column count of the store), or throws the [range_error] with no
    record left. *)
Theorem homo_constructor_cases
        (fileName content : string) (separator : ascii) (numValues : nat) :
  (Homo.CSVFileReader fileName (Some content) separator numValues
   = (map (fun line => Tokenizer.tokenize line separator)
          (data_lines content), Returned) /\
   forall line, In line (data_lines content) ->
                token_count separator line
                = established separator content numValues) \/
  (exists l v,
      Homo.CSVFileReader fileName (Some content) separator numValues
      = ([], Thrown (inconsistent l v
                       (established separator content numValues)))).
Proof. apply homo_outcome. Qed.

(** X6.  In a store of one type that was built all records have the
    same number of values, the column count of the store; when there is
    a record, [cols()] is that count and it is not 0. *)
Theorem homo_rows_have_cols
        (fileName content : string) (separator : ascii) (numValues : nat)
        (_records : list Homo.record) :
  Homo.CSVFileReader fileName (Some content) separator numValues
  = (_records, Returned) ->
  Forall (fun values =>
            List.length values = established separator content numValues)
         _records /\
  (_records <> [] ->
   Homo.cols _records = Some (established separator content numValues) /\
   0 < established separator content numValues).
Proof.
  intros Hctor.
  destruct (homo_outcome fileName content separator numValues)
    as [[Hok Hall]|(l & v & Hthrow)];
    [|rewrite Hthrow in Hctor; discriminate].
  rewrite Hok in Hctor. injection Hctor as <-.
  assert (Hrows : Forall (fun values =>
                    List.length values
                    = established separator content numValues)
                    (map (fun line => Tokenizer.tokenize line separator)
                         (data_lines content))).
  { apply Forall_forall. intros values Hin.
    apply in_map_iff in Hin as (line & <- & Hline). apply (Hall line Hline). }
  split; [exact Hrows|].
  intros Hne. unfold Homo.cols.
  destruct (data_lines content) as [|line rest] eqn:Hd;
    [exfalso; apply Hne; reflexivity|].
  cbn [map nth_error]. pose proof (Forall_inv Hrows) as Hfirst.
  cbn beta in Hfirst.
  rewrite Hfirst. split; [reflexivity|].
  rewrite <- Hfirst. apply token_count_pos.
Qed.

Lemma homo_rows_have_cols_witness :
  let _records := [["a"; "b"]; ["d"; "e"]] in
  Forall (fun values =>
            List.length values
            = established ";" (text ["a;b"; "#c"; "d;e"; ""]) 0)
         _records /\
  (_records <> [] ->
   Homo.cols _records
   = Some (established ";" (text ["a;b"; "#c"; "d;e"; ""]) 0) /\
   0 < established ";" (text ["a;b"; "#c"; "d;e"; ""]) 0).
Proof.
  apply (homo_rows_have_cols "test.csv" (text ["a;b"; "#c"; "d;e"; ""])
                             ";" 0 [["a"; "b"]; ["d"; "e"]]).
  reflexivity.
Defined.

(** X7.  The loop over [size()] and [cols()] with [csv[i][col]]: in a
    store of one type that was built, for every row number below
    [size()] the row is the tokens of the data line with that number,
    [cols()] reads inside the vector and is the length of the row, and
    every column number below [cols()] is inside the row. *)
Theorem homo_index_loop_safe
        (fileName content : string) (separator : ascii) (numValues : nat)
        (_records : list Homo.record) (i : nat) :
  Homo.CSVFileReader fileName (Some content) separator numValues
  = (_records, Returned) ->
  i < Homo.size _records ->
  exists line values n,
    nth_error (data_lines content) i = Some line /\
    operator_index _records i = Some values /\
    values = Tokenizer.tokenize line separator /\
    Homo.cols _records = Some n /\
    List.length values = n /\
    forall col, col < n -> exists v, operator_index values col = Some v.
Proof.
  intros Hctor Hi.
  destruct (homo_outcome fileName content separator numValues)
    as [[Hok Hall]|(l & v & Hthrow)];
    [|rewrite Hthrow in Hctor; discriminate].
  rewrite Hok in Hctor. injection Hctor as <-.
  unfold Homo.size, operator_index, Homo.cols in *.
  rewrite length_map in Hi.
  destruct (nth_error (data_lines content) i) as [line|] eqn:Hline;
    [|apply nth_error_None in Hline; lia].
  exists line, (Tokenizer.tokenize line separator),
    (established separator content numValues).
  split; [reflexivity|].
  split; [rewrite nth_error_map, Hline; reflexivity|].
  split; [reflexivity|].
  assert (Hlen : List.length (Tokenizer.tokenize line separator)
                 = established separator content numValues).
  { apply (Hall line). eapply nth_error_In. exact Hline. }
  split.
  - destruct (data_lines content) as [|first rest] eqn:Hd.
    + destruct i; discriminate.
    + cbn [map nth_error]. f_equal. apply (Hall first). left. reflexivity.
  - split; [exact Hlen|].
    intros col Hcol. rewrite <- Hlen in Hcol.
    destruct (nth_error (Tokenizer.tokenize line separator) col) as [v|]
      eqn:Hv; [eauto|].
    apply nth_error_None in Hv. lia.
Qed.

Lemma homo_index_loop_safe_witness :
  exists line values n,
    nth_error (data_lines (text ["a;b"; "#c"; "d;e"; ""])) 1 = Some line /\
    operator_index [["a"; "b"]; ["d"; "e"]] 1 = Some values /\
    values = Tokenizer.tokenize line ";" /\
    Homo.cols [["a"; "b"]; ["d"; "e"]] = Some n /\
    List.length values = n /\
    forall col, col < n -> exists v, operator_index values col = Some v.
Proof.
  apply (homo_index_loop_safe "test.csv" (text ["a;b"; "#c"; "d;e"; ""])
                              ";" 0 [["a"; "b"]; ["d"; "e"]] 1).
  - reflexivity.
  - unfold Homo.size. simpl. lia.
Defined.

(** X8.  Skipped lines change nothing: two files with the same data
    lines give the same result in both stores, the same records or the
    same exception with the same text. *)
Theorem same_data_lines_same_store
        (atof : string -> spec_float) (atol atoi : string -> Z)
        (TYPES : list VAL_TYPE) (fileName content content' : string)
        (separator : ascii) (numValues : nat) :
  data_lines content = data_lines content' ->
  Hetero.CSVFileReader atof atol atoi TYPES fileName (Some content)
                       separator
  = Hetero.CSVFileReader atof atol atoi TYPES fileName (Some content')
                         separator /\
  Homo.CSVFileReader fileName (Some content) separator numValues
  = Homo.CSVFileReader fileName (Some content') separator numValues.
Proof.
  unfold data_lines. intros Hsame.
  cbn [Hetero.CSVFileReader Homo.CSVFileReader]. split.
  - rewrite (hetero_read_data atof atol atoi TYPES separator
                              (getlines content)).
    rewrite (hetero_read_data atof atol atoi TYPES separator
                              (getlines content')).
    rewrite Hsame. reflexivity.
  - rewrite (homo_read_data separator (getlines content)).
    rewrite (homo_read_data separator (getlines content')).
    rewrite Hsame. reflexivity.
Qed.

Lemma same_data_lines_same_store_witness :
  Hetero.CSVFileReader (fun _ => S754_zero false) (fun _ => 0%Z) (fun _ => 0%Z)
    [integer int_t; std_string] "test.csv"
    (Some (text ["#c"; "1;a"; ""; "2"; "3;c"])) ";"
  = Hetero.CSVFileReader (fun _ => S754_zero false) (fun _ => 0%Z) (fun _ => 0%Z)
      [integer int_t; std_string] "test.csv"
      (Some (text ["1;a"; "2"; "!d"; "3;c"; ""])) ";" /\
  Homo.CSVFileReader "test.csv" (Some (text ["#c"; "1;a"; ""; "2"; "3;c"]))
                     ";" 0
  = Homo.CSVFileReader "test.csv"
                       (Some (text ["1;a"; "2"; "!d"; "3;c"; ""])) ";" 0.
Proof.
  apply (same_data_lines_same_store
           (fun _ => S754_zero false) (fun _ => 0%Z) (fun _ => 0%Z)
           [integer int_t; std_string] "test.csv"
           (text ["#c"; "1;a"; ""; "2"; "3;c"])
           (text ["1;a"; "2"; "!d"; "3;c"; ""]) ";" 0).
  reflexivity.
Defined.

Lemma decoded_row_strings
      (atof : string -> spec_float) (atol atoi : string -> Z)
      (tokens : list string) :
  decoded_row atof atol atoi (repeat std_string (List.length tokens)) tokens
  = map Text tokens.
Proof.
  unfold decoded_row.
  induction tokens as [|t tokens IH]; cbn [List.length repeat combine map];
    [reflexivity|].
  rewrite IH. reflexivity.
Qed.

(** X9.  The store with declared column types, all of them
    [std::string] (two or more: with one type the class is the store of
    one type), and the store of one type with the same number of
    columns given agree on every file: the same exception, or the same
    rows with the same texts. *)
Theorem hetero_strings_is_homo
        (atof : string -> spec_float) (atol atoi : string -> Z)
        (fileName content : string) (separator : ascii) (n : nat) :
  1 < n ->
  Hetero.CSVFileReader atof atol atoi (repeat std_string n) fileName
                       (Some content) separator
  = (map (map Text)
         (fst (Homo.CSVFileReader fileName (Some content) separator n)),
     snd (Homo.CSVFileReader fileName (Some content) separator n)).
Proof.
  intros Hmany. assert (Hn : n <> 0) by lia.
  cbn [Hetero.CSVFileReader Homo.CSVFileReader].
  destruct (existsb (violates separator n) (getlines content)) eqn:Hex.
  - apply first_such in Hex as (pre & x & post & -> & Hx & Hpre).
    rewrite (homo_read_violation separator n Hn pre x post [] Hpre Hx).
    pose proof (read_violation atof atol atoi (repeat std_string n)
                               separator pre x post []) as Hhetero.
    rewrite repeat_length in Hhetero.
    rewrite (Hhetero Hpre Hx). reflexivity.
  - apply no_such in Hex.
    rewrite (homo_read_regular separator n Hn (getlines content) [] Hex).
    pose proof (hetero_read_rows atof atol atoi (repeat std_string n)
                                 separator (getlines content) []) as Hhetero.
    rewrite repeat_length in Hhetero.
    rewrite (Hhetero Hex). cbn [app fst snd]. f_equal.
    rewrite map_map. apply map_ext_in. intros line Hline.
    rewrite <- (violation_free_lines separator n _ Hex line Hline).
    apply decoded_row_strings.
Qed.

Lemma hetero_strings_is_homo_witness :
  Hetero.CSVFileReader (fun _ => S754_zero false) (fun _ => 0%Z) (fun _ => 0%Z)
    (repeat std_string 2) "test.csv" (Some (text ["a;b"; "#c"; "d;e"; ""]))
    ";"
  = (map (map Text)
         (fst (Homo.CSVFileReader "test.csv"
                 (Some (text ["a;b"; "#c"; "d;e"; ""])) ";" 2)),
     snd (Homo.CSVFileReader "test.csv"
            (Some (text ["a;b"; "#c"; "d;e"; ""])) ";" 2)).
Proof.
  apply (hetero_strings_is_homo (fun _ => S754_zero false) (fun _ => 0%Z)
           (fun _ => 0%Z) "test.csv" (text ["a;b"; "#c"; "d;e"; ""]) ";" 2).
  apply le_n.
Defined.

(** The number in the exception against the number of the line, on the
    file with the lines "#c", "a;b", "", "x;y;z". *)
Lemma hetero_reported_number_witness :
  exists pre line post,
    getlines (text ["#c"; "a;b"; ""; "x;y;z"]) = pre ++ line :: post /\
    4 = S (List.length pre) /\
    List.length (filter is_data pre) <= List.length pre /\
    Hetero.CSVFileReader (fun _ => S754_zero false) (fun _ => 0%Z) (fun _ => 0%Z)
      [std_string; std_string] "test.csv"
      (Some (text ["#c"; "a;b"; ""; "x;y;z"])) ";"
    = ([], Thrown (inconsistent (List.length (filter is_data pre) + 1)
                                (token_count ";" line)
                                (List.length [std_string; std_string]))).
Proof.
  apply (hetero_reported_number (fun _ => S754_zero false) (fun _ => 0%Z)
           (fun _ => 0%Z) [std_string; std_string] "test.csv"
           (text ["#c"; "a;b"; ""; "x;y;z"]) ";" 4 []).
  reflexivity.
Defined.

Lemma homo_reported_number_witness :
  exists pre line post,
    getlines (text ["#c"; "a;b"; ""; "x;y;z"]) = pre ++ line :: post /\
    4 = S (List.length pre) /\
    List.length (filter is_data pre) <= List.length pre /\
    Homo.CSVFileReader "test.csv" (Some (text ["#c"; "a;b"; ""; "x;y;z"]))
                       ";" 2
    = ([], Thrown (inconsistent (List.length (filter is_data pre) + 1)
                                (token_count ";" line) 2)).
Proof.
  apply (homo_reported_number "test.csv" (text ["#c"; "a;b"; ""; "x;y;z"])
                              ";" 2 4 []).
  - discriminate.
  - reflexivity.
Defined.

End CSVMore.

(* ================================================================== *)
(** * More on the properties store *)

Module PropertiesMore.
Import Str Exn Decoder Properties Shape.
Import StringOrder MultimapFacts ParseLineFacts StoreFacts.

(** ** Helpers *)

Lemma keys_of_store (m : multimap) (key : string) :
  ordered m -> (In key (keys m) <-> In key (map fst m)).
Proof.
  intros Hm. rewrite keys_distinct.
  rewrite (distinct_In m Hm None key) by (intros k [=]).
  split; [intros [H _]; exact H|intros H; split; [exact H|discriminate]].
Qed.

Lemma filter_key_nonempty (key : string) (pairs : list (string * string)) :
  In key (map fst pairs)
  <-> filter (fun kv => String.eqb (fst kv) key) pairs <> [].
Proof.
  induction pairs as [|kv pairs IH]; cbn [map filter In].
  - split; [intros []|congruence].
  - destruct (String.eqb_spec (fst kv) key) as [Heq|Hne].
    + split; [discriminate|auto].
    + rewrite <- IH. split; [intros [H|H]; [contradiction|exact H]|auto].
Qed.

Lemma insert_permutation (kv : string * string) (m : multimap) :
  Permutation (kv :: m) (insert kv m).
Proof.
  induction m as [|kv' m IH]; cbn [insert]; auto.
  destruct (String.ltb (fst kv) (fst kv')); auto.
  eapply perm_trans; [apply perm_swap|]. apply perm_skip. exact IH.
Qed.

Lemma insert_all_permutation (pairs : list (string * string)) :
  forall m, Permutation (m ++ pairs) (insert_all pairs m).
Proof.
  induction pairs as [|kv pairs IH]; intros m; cbn [insert_all fold_left].
  - rewrite app_nil_r. apply Permutation_refl.
  - eapply perm_trans; [|apply (IH (insert kv m))].
    apply Permutation_sym.
    eapply perm_trans;
      [apply Permutation_app_tail; apply Permutation_sym;
       apply insert_permutation|].
    cbn [app]. apply Permutation_middle.
Qed.

Lemma parsed_In (separator : ascii) (kv : string * string) :
  forall lines,
    In kv (parsed separator lines) ->
    exists line, In line lines /\ parse_line line separator = Done (Some kv).
Proof.
  induction lines as [|line lines IH]; cbn [parsed]; [intros []|].
  destruct (parse_line line separator) as [[p|]|e| |] eqn:Hparse;
    try (intros H; destruct (IH H) as (l & Hl & Hp); exists l;
         split; [right; exact Hl|exact Hp]).
  intros [<-|H].
  - exists line. split; [left; reflexivity|exact Hparse].
  - destruct (IH H) as (l & Hl & Hp). exists l.
    split; [right; exact Hl|exact Hp].
Qed.

(** Every pair of a store that was built comes from a line of the
    file. *)
Lemma store_pairs (fileName content : string) (separator : ascii)
      (m : multimap) :
  fits content ->
  PropertiesFileReader fileName (Some content) separator = Done m ->
  forall kv, In kv m ->
    exists line, fits line /\ line_outcome line separator = Done (Some kv).
Proof.
  intros Hfit Hctor kv Hin. cbn [PropertiesFileReader] in Hctor.
  apply read_insert_all in Hctor. subst m.
  apply insert_all_In in Hin as [[]|Hin].
  apply parsed_In in Hin as (line & Hline & Hparse).
  pose proof (getlines_fit content Hfit) as Hfits.
  rewrite Forall_forall in Hfits. specialize (Hfits line Hline).
  exists line. split; [exact Hfits|].
  rewrite <- (parse_line_outcome line separator Hfits). exact Hparse.
Qed.

Lemma store_ordered (fileName content : string) (separator : ascii)
      (m : multimap) :
  PropertiesFileReader fileName (Some content) separator = Done m ->
  m = insert_all (parsed separator (getlines content)) [] /\ ordered m.
Proof.
  cbn [PropertiesFileReader]. intros Hctor.
  apply read_insert_all in Hctor. split; [exact Hctor|].
  subst m. apply insert_all_ordered. apply nil_ordered.
Qed.

(** ** Lookup *)

(** X12.  [value(key)] on a store that was built gives the value of the
    first line of the file that defines the key, and throws
    [out_of_range] with the text "Property not found: " and the key when
    no line defines it; it gives a value exactly for the keys that
    [keys()] lists. *)
Theorem value_is_first_in_file
        (fileName content : string) (separator : ascii) (m : multimap)
        (key : string) :
  PropertiesFileReader fileName (Some content) separator = Done m ->
  value m key
  = match values_of key (parsed separator (getlines content)) with
    | [] => Raise (out_of_range ("Property not found: " ++ key))
    | v :: _ => Done v
    end /\
  ((exists v, value m key = Done v) <-> In key (keys m)).
Proof.
  intros Hctor. destruct (store_ordered _ _ _ _ Hctor) as [Hm Hord].
  assert (Hrange : equal_range m key
                   = filter (fun kv => String.eqb (fst kv) key)
                            (parsed separator (getlines content))).
  { rewrite (equal_range_filter key m Hord). subst m.
    rewrite insert_all_filter by apply nil_ordered. reflexivity. }
  unfold value, values_of. rewrite Hrange. split.
  - destruct (filter _ _); reflexivity.
  - rewrite (keys_of_store m key Hord).
    assert (Hkeys : In key (map fst m)
                    <-> In key (map fst (parsed separator (getlines content)))).
    { subst m. rewrite !in_map_iff. split.
      - intros (x & Hx & Hin). exists x. split; auto.
        apply insert_all_In in Hin as [[]|Hin]. exact Hin.
      - intros (x & Hx & Hin). exists x. split; auto.
        apply insert_all_In. auto. }
    rewrite Hkeys, filter_key_nonempty.
    destruct (filter _ _) as [|kv rest].
    + split; [intros [v Hv]; discriminate|congruence].
    + split; [discriminate|eauto].
Qed.

Lemma value_is_first_in_file_witness :
  let content := text ["b=1"; "a=2"; "#c"; "b=0"; ""] in
  let m := [("a", "2"); ("b", "1"); ("b", "0")] in
  value m "b"
  = match values_of "b" (parsed "=" (getlines content)) with
    | [] => Raise (out_of_range ("Property not found: " ++ "b"))
    | v :: _ => Done v
    end /\
  ((exists v, value m "b" = Done v) <-> In "b" (keys m)).
Proof.
  apply (value_is_first_in_file "test.prop"
           (text ["b=1"; "a=2"; "#c"; "b=0"; ""]) "="
           [("a", "2"); ("b", "1"); ("b", "0")] "b").
  vm_compute. reflexivity.
Defined.

(** X13.  Insertion and lookup in a store in key order: after
    [insert] of a pair the values of its key are the former ones
    followed by the new value, the values of every other key are the
    former ones, [value] of the key is the oldest value of the key, and
    the store is in key order again. *)
Theorem insert_then_lookup (m : multimap) (key v : string) :
  ordered m ->
  values (insert (key, v) m) key = values m key ++ [v] /\
  (forall other, other <> key ->
                 values (insert (key, v) m) other = values m other) /\
  value (insert (key, v) m) key
  = Done (match values m key with [] => v | oldest :: _ => oldest end) /\
  ordered (insert (key, v) m).
Proof.
  intros Hm.
  pose proof (insert_ordered (key, v) m Hm) as Hm'.
  assert (Hkey : equal_range (insert (key, v) m) key
                 = equal_range m key ++ [(key, v)]).
  { rewrite (equal_range_filter key _ Hm'), (equal_range_filter key m Hm).
    rewrite (insert_filter key (key, v) m Hm), filter_app.
    cbn [filter fst]. rewrite String.eqb_refl. reflexivity. }
  split; [unfold values; rewrite Hkey, map_app; reflexivity|].
  split.
  - intros other Hother. unfold values.
    rewrite (equal_range_filter other _ Hm'), (equal_range_filter other m Hm).
    rewrite (insert_filter other (key, v) m Hm), filter_app.
    cbn [filter fst]. apply String.eqb_neq in Hother.
    rewrite String.eqb_sym in Hother. rewrite Hother, app_nil_r.
    reflexivity.
  - split; [|exact Hm'].
    unfold value, values. rewrite Hkey.
    destruct (equal_range m key); reflexivity.
Qed.

Lemma insert_then_lookup_witness :
  let m := [("a", "2"); ("b", "1"); ("c", "3")] in
  values (insert ("b", "0") m) "b" = values m "b" ++ ["0"] /\
  (forall other, other <> "b" ->
                 values (insert ("b", "0") m) other = values m other) /\
  value (insert ("b", "0") m) "b"
  = Done (match values m "b" with [] => "0" | oldest :: _ => oldest end) /\
  ordered (insert ("b", "0") m).
Proof.
  apply (insert_then_lookup [("a", "2"); ("b", "1"); ("c", "3")] "b" "0").
  repeat constructor.
Defined.

(** X14.  A store that was built holds exactly the pairs of the file,
    each as often as the file has it, in the order of their keys, the
    pairs of one key in the order of the file. *)
Theorem store_is_stable_sort
        (fileName content : string) (separator : ascii) (m : multimap) :
  PropertiesFileReader fileName (Some content) separator = Done m ->
  Permutation (parsed separator (getlines content)) m /\
  ordered m /\
  forall key,
    filter (fun kv => String.eqb (fst kv) key) m
    = filter (fun kv => String.eqb (fst kv) key)
             (parsed separator (getlines content)).
Proof.
  intros Hctor. destruct (store_ordered _ _ _ _ Hctor) as [Hm Hord].
  split; [|split; [exact Hord|]].
  - subst m. apply (insert_all_permutation _ []).
  - intros key. subst m.
    rewrite insert_all_filter by apply nil_ordered. reflexivity.
Qed.

Lemma store_is_stable_sort_witness :
  let content := text ["b=1"; "a=2"; "#c"; "b=0"; ""] in
  let m := [("a", "2"); ("b", "1"); ("b", "0")] in
  Permutation (parsed "=" (getlines content)) m /\
  ordered m /\
  forall key,
    filter (fun kv => String.eqb (fst kv) key) m
    = filter (fun kv => String.eqb (fst kv) key)
             (parsed "=" (getlines content)).
Proof.
  apply (store_is_stable_sort "test.prop"
           (text ["b=1"; "a=2"; "#c"; "b=0"; ""]) "="
           [("a", "2"); ("b", "1"); ("b", "0")]).
  vm_compute. reflexivity.
Defined.

(** ** Keys and values of the store *)

Lemma strip_before_chars (separator : ascii) (line : string) :
  all_chars (fun c => negb (isspace c) && negb (Ascii.eqb c separator))
            (strip (before separator line)) = true.
Proof.
  induction line as [|c s IH]; cbn [before strip all_chars]; auto.
  destruct (Ascii.eqb c separator) eqn:Hc; cbn [strip all_chars]; auto.
  destruct (isspace c) eqn:Hs; cbn [all_chars]; auto.
  rewrite Hs, Hc, IH. reflexivity.
Qed.

(** X15.  The keys of a store that was built: no key is empty, no key
    holds a whitespace character or the separator, and no key starts
    with '#' or '!'. *)
Theorem stored_keys_shape
        (fileName content : string) (separator : ascii) (m : multimap) :
  fits content ->
  PropertiesFileReader fileName (Some content) separator = Done m ->
  Forall (fun kv =>
            fst kv <> EmptyString /\
            all_chars (fun c => negb (isspace c)
                                && negb (Ascii.eqb c separator))
                      (fst kv) = true /\
            starts_with (fst kv) "#" = false /\
            starts_with (fst kv) "!" = false) m.
Proof.
  intros Hfit Hctor. apply Forall_forall. intros kv Hin.
  destruct (store_pairs _ _ _ _ Hfit Hctor kv Hin) as (line & _ & Hline).
  unfold line_outcome in Hline.
  destruct (not_a_property (strip (before separator line)) line) eqn:Hnot;
    [discriminate|].
  destruct (Tokenizer.occurs separator line); cbn [negb] in Hline;
    [|discriminate].
  destruct (skip_blank (after separator line)); [discriminate|].
  injection Hline as <-. cbn [fst].
  unfold not_a_property in Hnot.
  apply orb_false_iff in Hnot as [Hnot _].
  apply orb_false_iff in Hnot as [Hnot Hbang].
  apply orb_false_iff in Hnot as [Hempty Hhash].
  split; [|split; [apply strip_before_chars|split; assumption]].
  intros Hkey. rewrite Hkey in Hempty. discriminate.
Qed.

Lemma stored_keys_shape_witness :
  Forall (fun kv =>
            fst kv <> EmptyString /\
            all_chars (fun c => negb (isspace c) && negb (Ascii.eqb c "="))
                      (fst kv) = true /\
            starts_with (fst kv) "#" = false /\
            starts_with (fst kv) "!" = false)
         [("ab", "2 3"); ("key", "value")].
Proof.
  apply (stored_keys_shape "test.prop"
           (text ["key = value  "; " # c = d"; "a b=2 3"; ""]) "="
           [("ab", "2 3"); ("key", "value")]).
  - unfold fits. vm_compute. reflexivity.
  - vm_compute. reflexivity.
Defined.

Lemma cut_blank_again (s : string) : cut_blank (cut_blank s) = cut_blank s.
Proof.
  induction s as [|c s IH]; cbn [cut_blank]; auto.
  destruct (cut_blank s) as [|a t] eqn:Hcut.
  - destruct (blank c) eqn:Hc; cbn [cut_blank]; [reflexivity|].
    rewrite Hc. reflexivity.
  - cbn [cut_blank] in *. rewrite IH. reflexivity.
Qed.

(** X16.  The values of a store that was built have no blank character
    (whitespace, or a character outside ASCII) at their start or at
    their end: cutting the blank characters off either end again leaves
    the value as it is. *)
Theorem stored_values_trimmed
        (fileName content : string) (separator : ascii) (m : multimap) :
  fits content ->
  PropertiesFileReader fileName (Some content) separator = Done m ->
  Forall (fun kv =>
            skip_blank (snd kv) = snd kv /\ cut_blank (snd kv) = snd kv) m.
Proof.
  intros Hfit Hctor. apply Forall_forall. intros kv Hin.
  destruct (store_pairs _ _ _ _ Hfit Hctor kv Hin) as (line & _ & Hline).
  unfold line_outcome in Hline.
  destruct (not_a_property (strip (before separator line)) line);
    [discriminate|].
  destruct (Tokenizer.occurs separator line); cbn [negb] in Hline;
    [|discriminate].
  destruct (skip_blank (after separator line)) as [|c r] eqn:Hv;
    [discriminate|].
  remember (cut_blank (String c r)) as trimmed eqn:Htrimmed.
  injection Hline as <-. cbn [snd]. subst trimmed.
  pose proof (skip_blank_first _ _ _ Hv) as Hc.
  split; [|apply cut_blank_again].
  destruct (cut_blank_first c r Hc) as (t & ->).
  cbn [skip_blank]. rewrite Hc. reflexivity.
Qed.

Lemma stored_values_trimmed_witness :
  Forall (fun kv =>
            skip_blank (snd kv) = snd kv /\ cut_blank (snd kv) = snd kv)
         [("ab", "2 3"); ("key", "value")].
Proof.
  apply (stored_values_trimmed "test.prop"
           (text ["key = value  "; " # c = d"; "a b=2 3"; ""]) "="
           [("ab", "2 3"); ("key", "value")]).
  - unfold fits. vm_compute. reflexivity.
  - vm_compute. reflexivity.
Defined.

(** ** Lines *)

Lemma strip_before_start (separator : ascii) (line : string) :
  strip (before separator line) = EmptyString \/
  exists c r r',
    strip (before separator line) = String c r /\
    strip line = String c r'.
Proof.
  induction line as [|a s IH]; cbn [before strip]; auto.
  destruct (Ascii.eqb a separator); cbn [strip]; auto.
  destruct (isspace a); [exact IH|]. right. eauto.
Qed.

(** X17.  Comment lines and blank lines of a properties file: a line
    with nothing but whitespace, and a line whose first character that
    is not whitespace is '#' or '!', is discarded, whatever the
    separator and whatever follows. *)
Theorem comment_line_discarded (line : string) (separator : ascii) :
  fits line ->
  strip line = EmptyString \/
  starts_with (strip line) "#" = true \/
  starts_with (strip line) "!" = true ->
  parse_line line separator = Done None.
Proof.
  intros Hfit Hline. rewrite (parse_line_outcome line separator Hfit).
  unfold line_outcome, not_a_property.
  destruct (strip_before_start separator line)
    as [->|(c & r & r' & -> & Hstrip)]; [reflexivity|].
  rewrite Hstrip in Hline. cbn [starts_with length Nat.eqb orb] in *.
  destruct Hline as [H|[->| ->]]; [discriminate| |]; cbn [orb];
    try reflexivity.
  destruct (Ascii.eqb c "#"); reflexivity.
Qed.

Lemma comment_line_discarded_witness :
  parse_line "   ! note = 1" "=" = Done None.
Proof.
  apply (comment_line_discarded "   ! note = 1" "=").
  - unfold fits. vm_compute. reflexivity.
  - right. right. reflexivity.
Defined.

Lemma safe_line_outcome (separator : ascii) (line : string) :
  line_outcome line separator = OutOfBounds <-> safe_line separator line = false.
Proof.
  unfold line_outcome, safe_line.
  destruct (not_a_property (strip (before separator line)) line);
    cbn [orb]; [split; discriminate|].
  destruct (Tokenizer.occurs separator line); cbn [negb andb];
    [|split; reflexivity].
  destruct (skip_blank (after separator line)); cbn [String.eqb negb];
    split; auto; discriminate.
Qed.

Lemma read_returns (separator : ascii) (lines : list string) :
  Forall fits lines ->
  forall m,
    (exists m', read separator lines m = Done m')
    <-> forallb (safe_line separator) lines = true.
Proof.
  induction 1 as [|line lines Hfit Hfits IH]; intros m;
    cbn [read forallb].
  - split; eauto.
  - pose proof (safe_line_outcome separator line) as Hsafe.
    rewrite <- (parse_line_outcome line separator Hfit) in Hsafe.
    destruct (parse_line_cases line separator Hfit)
      as [Hp|[Hp|(k & v & Hp & _)]]; rewrite Hp in *.
    + destruct (safe_line separator line).
      * cbn [andb]. apply IH.
      * destruct Hsafe as [_ Hsafe]. discriminate (Hsafe eq_refl).
    + rewrite (proj1 Hsafe eq_refl). cbn [andb].
      split; [intros [m' Hm']; discriminate|discriminate].
    + destruct (safe_line separator line).
      * cbn [andb]. apply IH.
      * destruct Hsafe as [_ Hsafe]. discriminate (Hsafe eq_refl).
Qed.

(** X18.  A file all of whose lines the loop body handles inside its
    strings (the lines it discards, and the lines with the separator
    and a character that is not blank behind it) is read: the
    constructor returns, with no read outside a string and without
    entering its handler, and the store holds the pairs of the property
    lines, sorted by key with the order of the file kept among equal
    keys, none with an empty key or an empty value. *)
Theorem safe_file_is_read
        (fileName content : string) (separator : ascii) :
  fits content ->
  forallb (safe_line separator) (getlines content) = true ->
  exists m,
    PropertiesFileReader fileName (Some content) separator = Done m /\
    m = insert_all (parsed separator (getlines content)) [] /\
    ordered m /\
    no_empty m.
Proof.
  intros Hfit Hsafe.
  destruct (proj2 (read_returns separator (getlines content)
                                (getlines_fit content Hfit) []) Hsafe)
    as [m Hm].
  exists m. split; [exact Hm|].
  destruct (store_ordered fileName content separator m Hm) as [Hpairs Hord].
  split; [exact Hpairs|]. split; [exact Hord|].
  exact (store_no_empty fileName content separator m Hfit Hm).
Qed.

Lemma safe_file_is_read_witness :
  exists m,
    PropertiesFileReader "test.prop"
      (Some (text ["key = value  "; "# c"; "plain"; "a b=2 3"; ""])) "="
    = Done m /\
    m = insert_all
          (parsed "=" (getlines (text ["key = value  "; "# c"; "plain";
                                       "a b=2 3"; ""]))) [] /\
    ordered m /\
    no_empty m.
Proof.
  apply (safe_file_is_read "test.prop"
           (text ["key = value  "; "# c"; "plain"; "a b=2 3"; ""]) "=").
  - unfold fits. vm_compute. reflexivity.
  - vm_compute. reflexivity.
Defined.

(** X19.  What the loop body of the constructor does with a line, its
    three index loops and the wrap-around of their [size_t] index
    included.  With the key the text before the first separator
    without its whitespace: the line is discarded when the key is
    empty, starts with '#' or '!', or is as long as the line; otherwise
    the body reads outside the line when the line has no separator,
    and outside the value when nothing but blank characters follows
    the separator; otherwise it gives the key and the text behind the
    separator without the blank characters at its two ends. *)
Theorem loop_body_outcome (line : string) (separator : ascii) :
  fits line ->
  (not_a_property (strip (before separator line)) line = true ->
   parse_line line separator = Done None) /\
  (not_a_property (strip (before separator line)) line = false ->
   Tokenizer.occurs separator line = false ->
   parse_line line separator = OutOfBounds) /\
  (not_a_property (strip (before separator line)) line = false ->
   Tokenizer.occurs separator line = true ->
   skip_blank (after separator line) = EmptyString ->
   parse_line line separator = OutOfBounds) /\
  (not_a_property (strip (before separator line)) line = false ->
   Tokenizer.occurs separator line = true ->
   skip_blank (after separator line) <> EmptyString ->
   parse_line line separator
   = Done (Some (strip (before separator line),
                 cut_blank (skip_blank (after separator line))))).
Proof.
  intros Hfit. rewrite (parse_line_outcome line separator Hfit).
  unfold line_outcome.
  repeat split; intros Hnot; rewrite Hnot; try reflexivity;
    intros Hocc; rewrite Hocc; cbn [negb]; try reflexivity;
    intros Hvalue.
  - rewrite Hvalue. reflexivity.
  - destruct (skip_blank (after separator line)); [congruence|reflexivity].
Qed.

Lemma loop_body_outcome_witness :
  parse_line "k e y=  a b  " "=" = Done (Some ("key", "a b")).
Proof.
  refine (proj2 (proj2 (proj2
            (loop_body_outcome "k e y=  a b  " "=" _))) _ _ _).
  - unfold fits. vm_compute. reflexivity.
  - reflexivity.
  - reflexivity.
  - vm_compute. discriminate.
Defined.

Lemma rule_gives_pair_witness :
  parse_line "key = value  " "=" = Done (Some ("key", "value")).
Proof.
  apply (rule_gives_pair "key = value  " "=" "key" "value").
  - unfold fits. vm_compute. reflexivity.
  - reflexivity.
  - reflexivity.
  - discriminate.
Defined.

Lemma discarded_by_rule_witness : line_rule "plain" "=" = None.
Proof.
  apply (discarded_by_rule "plain" "=").
  - unfold fits. vm_compute. reflexivity.
  - vm_compute. reflexivity.
Defined.

(** X23.  The typed accessors on a store that was built:
    [values<TYPE>(key)] gives the values of the lines that define the
    key, in the order of the file, each converted to the type;
    [value<TYPE>(key)] gives the first of them converted, and throws
    [out_of_range] when no line defines the key.  The conversion: the
    value itself for [std::string]; whether [atoi] of the value is not
    0 for [bool]; for an integer type the value of the type congruent
    to [atol] of the text (a type larger than [int]) or to [atoi] of
    it; for a floating-point type [atof] of the text, rounded for
    [float]. *)
Theorem typed_lookup
        (atof : string -> spec_float) (atol atoi : string -> Z)
        (T : VAL_TYPE) (fileName content : string) (separator : ascii)
        (m : multimap) (key : string) :
  let converted (text : string) : field :=
    match T with
    | std_string => Text text
    | bool_t => Boolean (negb (atoi text =? 0)%Z)
    | integer ty =>
        Integer (to_integer ty (if (4 <? sizeof ty)%Z then atol text
                                else atoi text))
    | floating K => Floating (to_floating K (atof text))
    end in
  PropertiesFileReader fileName (Some content) separator = Done m ->
  values_as atof atol atoi T m key
  = map converted (values_of key (parsed separator (getlines content))) /\
  value_as atof atol atoi T m key
  = match values_of key (parsed separator (getlines content)) with
    | [] => Raise (out_of_range ("Property not found: " ++ key))
    | v :: _ => Done (converted v)
    end.
Proof.
  intros converted Hctor.
  destruct (store_ordered _ _ _ _ Hctor) as [Hm Hord].
  assert (Hrange : equal_range m key
                   = filter (fun kv => String.eqb (fst kv) key)
                            (parsed separator (getlines content))).
  { rewrite (equal_range_filter key m Hord). subst m.
    rewrite insert_all_filter by apply nil_ordered. reflexivity. }
  assert (Hconv : forall text, decode atof atol atoi T text = converted text).
  { intros text. unfold converted.
    destruct T as [| |ty|K]; cbn [decode]; try reflexivity.
    change sizeof_int with 4%Z. destruct (4 <? sizeof ty)%Z; reflexivity. }
  unfold values_as, value_as, values_of. rewrite Hrange. split.
  - rewrite map_map. apply map_ext. intros kv. apply Hconv.
  - destruct (filter _ _); [reflexivity|]. cbn [map]. rewrite Hconv.
    reflexivity.
Qed.

Lemma typed_lookup_witness :
  let m := [("a", "2x"); ("b", "70000"); ("b", "-1")] in
  values_as Libc.atof Libc.atol Libc.atoi (integer unsigned_short_t) m "b"
  = [Integer 4464; Integer 65535] /\
  value_as Libc.atof Libc.atol Libc.atoi (integer unsigned_short_t) m "b"
  = Done (Integer 4464).
Proof.
  apply (typed_lookup Libc.atof Libc.atol Libc.atoi
           (integer unsigned_short_t) "test.prop"
           (text ["b=70000"; "a=2x"; "#c"; "b=-1"; ""]) "="
           [("a", "2x"); ("b", "70000"); ("b", "-1")] "b").
  vm_compute. reflexivity.
Defined.

End PropertiesMore.

